(** * Wallet authentication core of supra-multiwallet

    A shallow embedding of [src/lib/auth.ts] and of the route handlers
    [src/app/api/auth/create-jwt/route.ts] and [src/app/api/auth/check/route.ts].

    Conventions of the embedding.
    - A JavaScript string is a [string] whose characters are UTF-16 code
      units in the Latin-1 range (0..255).
    - A JavaScript number that holds an integer is a [Z]; [NaN] is kept apart
      (type [JsNum]), because [parseInt] produces it and comparisons with it
      are false.  Clock readings are safe integers.
    - Exceptions are explicit: a computation that may throw has type
      [Completion A]; [try_catch] is the [try { } catch { }] statement.
    - [async]/[await] is sequential here: every handler awaits each promise
      before it continues, so a promise is the completion it settles to.
    - The clock is an explicit argument [now] (milliseconds, [Date.now()]);
      one call reads one instant.  The random source is an explicit argument.
    - The fields of a request body have the types the code declares for
      them (strings, and an object of two strings); a field that is absent
      or [null] is [None].
    - The libraries [jose] and [tweetnacl] are not part of the repository.
      [jose]'s compact HS256 serialisation is an interface with the laws the
      code relies on ([JoseLib]); the Ed25519 primitive of [tweetnacl] is a
      parameter without any law.  [Buffer.from(_, 'hex')] decodes as Node.js
      does. *)

From Stdlib Require Import ZArith Lia Ascii DecimalString DecimalPos.
From Stdlib.Strings Require Import Byte.
From stdpp Require Import base gmap strings list.

Local Open Scope Z_scope.

(** ** ECMAScript primitives *)

Module JS.

(** Errors that the modelled code can observe. *)
Inductive JoseError :=
| JWSInvalid
| JWSSignatureVerificationFailed
| JWTInvalid
| JWTClaimValidationFailed
| JWTExpired.

Inductive JsError :=
| TypeError (msg : string)
| SyntaxError (msg : string)
| Error (msg : string)
| JoseErr (e : JoseError).

(** The outcome of evaluating a statement list that may throw. *)
Inductive Completion (A : Type) :=
| Return (a : A)
| Throw (e : JsError).
Arguments Return {A} a.
Arguments Throw {A} e.

Definition bind {A B} (c : Completion A) (k : A -> Completion B) : Completion B :=
  match c with
  | Return a => k a
  | Throw e => Throw e
  end.

(** [try { body } catch (error) { handler }] *)
Definition try_catch {A} (body : Completion A) (handler : JsError -> Completion A)
  : Completion A :=
  match body with
  | Return a => Return a
  | Throw e => handler e
  end.

(** Numbers: an integer or [NaN]. *)
Inductive JsNum :=
| NaN
| Int (z : Z).

(** [a - b] *)
Definition sub (a b : JsNum) : JsNum :=
  match a, b with
  | Int x, Int y => Int (x - y)
  | _, _ => NaN
  end.

(** [a > b]; false when either side is [NaN]. *)
Definition gt (a b : JsNum) : bool :=
  match a, b with
  | Int x, Int y => y <? x
  | _, _ => false
  end.

(** [a < b]; false when either side is [NaN]. *)
Definition lt (a b : JsNum) : bool :=
  match a, b with
  | Int x, Int y => x <? y
  | _, _ => false
  end.

(** JSON values that occur as JWT claims. *)
Inductive JsValue :=
| JNull
| JBool (b : bool)
| JNum (n : Z)
| JStr (s : string).

(** [!s] for a possibly absent string: [undefined], [null] and [""] are
    falsy, every other string is truthy. *)
Definition truthy_string (o : option string) : bool :=
  match o with
  | Some EmptyString => false
  | Some (String _ _) => true
  | None => false
  end.

(** [s.split(sep)] for a one-character separator.  The result is never
    empty: a string without separator is its only part. *)
Fixpoint split (sep : ascii) (s : string) : list string :=
  match s with
  | EmptyString => [EmptyString]
  | String c r =>
      if Ascii.eqb c sep then EmptyString :: split sep r
      else match split sep r with
           | [] => [String c EmptyString]
           | p :: ps => String c p :: ps
           end
  end.

(** [s.slice(2)] *)
Definition slice2 (s : string) : string :=
  match s with
  | String _ (String _ r) => r
  | _ => EmptyString
  end.

(** [StrWhiteSpaceChar] within Latin-1: TAB, LF, VT, FF, CR, SP, NBSP. *)
Definition is_whitespace (c : ascii) : bool :=
  match N_of_ascii c with
  | 9 | 10 | 11 | 12 | 13 | 32 | 160 => true
  | _ => false
  end%N.

Fixpoint trim_start (s : string) : string :=
  match s with
  | String c r => if is_whitespace c then trim_start r else s
  | EmptyString => EmptyString
  end.

Definition digit_value (c : ascii) : option Z :=
  let n := Z.of_N (N_of_ascii c) in
  if (48 <=? n) && (n <=? 57) then Some (n - 48) else None.

(** The value of the longest prefix of decimal digits, [None] when the
    prefix is empty. *)
Fixpoint parse_digits (acc : option Z) (s : string) : option Z :=
  match s with
  | String c r =>
      match digit_value c with
      | Some d => parse_digits (Some (match acc with Some a => a * 10 + d | None => d end)) r
      | None => acc
      end
  | EmptyString => acc
  end.

(** [parseInt(s, 10)] *)
Definition parseInt (s : string) : JsNum :=
  let t := trim_start s in
  let '(sign, digits) :=
    match t with
    | String "-" r => (-1, r)
    | String "+" r => (1, r)
    | _ => (1, t)
    end in
  match parse_digits None digits with
  | Some v => Int (sign * v)
  | None => NaN
  end.

(** [n.toString()] for an integer number. *)
Definition Number_toString (n : Z) : string :=
  NilZero.string_of_int (Z.to_int n).

Definition Uint8Array := list byte.

Definition byte_of_Z (n : Z) : byte :=
  match Byte.of_N (Z.to_N n) with
  | Some b => b
  | None => x00
  end.

(** [new TextEncoder().encode(s)]: UTF-8 of code units below 256. *)
Definition TextEncoder_encode (s : string) : Uint8Array :=
  flat_map
    (fun c : ascii =>
       let n := Z.of_N (N_of_ascii c) in
       if n <? 128 then [byte_of_ascii c]
       else [byte_of_Z (192 + n / 64); byte_of_Z (128 + n mod 64)])
    (String.list_ascii_of_string s).

Definition hex_digit (n : N) : ascii :=
  match n with
  | 0 => "0" | 1 => "1" | 2 => "2" | 3 => "3" | 4 => "4" | 5 => "5"
  | 6 => "6" | 7 => "7" | 8 => "8" | 9 => "9" | 10 => "a" | 11 => "b"
  | 12 => "c" | 13 => "d" | 14 => "e" | _ => "f"
  end%N%char.

(** [b.toString(16)] for a byte. *)
Definition byte_toString16 (b : byte) : string :=
  let n := Byte.to_N b in
  if (n <? 16)%N then String (hex_digit n) EmptyString
  else String (hex_digit (n / 16)) (String (hex_digit (n mod 16)) EmptyString).

(** [s.padStart(2, '0')] *)
Definition padStart2 (s : string) : string :=
  match s with
  | EmptyString => "00"
  | String c EmptyString => String "0" (String c EmptyString)
  | _ => s
  end.

(** [parts.join('')] *)
Definition join_empty (parts : list string) : string :=
  fold_right String.append EmptyString parts.

(** [Array.from(bytes).map(b => b.toString(16).padStart(2, '0')).join('')] *)
Definition hex_of_bytes (bytes : Uint8Array) : string :=
  join_empty (map (fun b => padStart2 (byte_toString16 b)) bytes).

(** The value of a hexadecimal digit, either case. *)
Definition unhex (c : ascii) : option Z :=
  let n := Z.of_N (N_of_ascii c) in
  if (48 <=? n) && (n <=? 57) then Some (n - 48)
  else if (97 <=? n) && (n <=? 102) then Some (n - 87)
  else if (65 <=? n) && (n <=? 70) then Some (n - 55)
  else None.

(** [Buffer.from(s, 'hex')]: pairs of hexadecimal digits are decoded until
    the first pair that is not hexadecimal; an odd last character is
    dropped.  It does not throw. *)
Fixpoint Buffer_from_hex (s : string) : Uint8Array :=
  match s with
  | String a (String b r) =>
      match unhex a, unhex b with
      | Some x, Some y => byte_of_Z (16 * x + y) :: Buffer_from_hex r
      | _, _ => []
      end
  | _ => []
  end.

End JS.
Import JS.

Notation "'do' x <- c ; k" := (JS.bind c (fun x => k))
  (at level 10, x name, c at level 100, k at level 200, only parsing).

(** ** The [jose] library, as far as [auth.ts] uses it *)

Module Jose.

(** A JWT claims set: a JSON object. *)
Abbreviation Claims := (gmap string JsValue).

(** Characters of a compact serialisation: the base64url alphabet and the
    dot that joins the three segments. *)
Definition is_compact_char (c : ascii) : bool :=
  let n := Z.of_N (N_of_ascii c) in
  ((48 <=? n) && (n <=? 57)) || ((65 <=? n) && (n <=? 90))
  || ((97 <=? n) && (n <=? 122)) || (n =? 45) || (n =? 95) || (n =? 46).

Fixpoint string_forallb (p : ascii -> bool) (s : string) : bool :=
  match s with
  | EmptyString => true
  | String c r => p c && string_forallb p r
  end.

(** The JWS layer for the protected header [{ alg: 'HS256' }].
    [sign_compact claims key] is the compact serialisation
    [base64url(header).base64url(claims).base64url(mac)];
    [verify_compact] parses such a string, checks the MAC under the key and
    returns the claims set.  The laws: what was signed under a key verifies
    under that key and gives back the claims; a serialisation is not empty
    and uses the compact alphabet only. *)
Class JoseLib := {
  sign_compact : Claims -> Uint8Array -> string;
  verify_compact : string -> Uint8Array -> Completion Claims;
  verify_sign_compact :
    forall claims key, verify_compact (sign_compact claims key) key = Return claims;
  sign_compact_alphabet :
    forall claims key, string_forallb is_compact_char (sign_compact claims key) = true;
  sign_compact_nonempty :
    forall claims key, sign_compact claims key <> EmptyString
}.

(** [epoch(date)]: whole seconds, [Math.floor(date.getTime() / 1000)]. *)
Definition epoch (now : Z) : Z := now / 1000.

(** [secs('24h')] *)
Definition secs_24h : Z := 24 * 60 * 60.

(** The builder [new SignJWT(payload)]. *)
Record SignJWT := {
  _payload : Claims;
  _protectedHeader : option string
}.

Definition new_SignJWT (payload : Claims) : SignJWT :=
  {| _payload := payload; _protectedHeader := None |}.

(** [.setProtectedHeader({ alg })] *)
Definition setProtectedHeader (alg : string) (b : SignJWT) : SignJWT :=
  {| _payload := _payload b; _protectedHeader := Some alg |}.

(** [.setExpirationTime(span)] for a time span of [span] seconds: the
    claim [exp] is the current epoch plus the span. *)
Definition setExpirationTime (span : Z) (now : Z) (b : SignJWT) : SignJWT :=
  {| _payload := <["exp" := JNum (epoch now + span)]> (_payload b);
     _protectedHeader := _protectedHeader b |}.

Section WithLib.
Context {J : JoseLib}.

(** [.sign(key)] *)
Definition sign (b : SignJWT) (key : Uint8Array) : Completion string :=
  match _protectedHeader b with
  | Some "HS256" => Return (sign_compact (_payload b) key)
  | _ => Throw (JoseErr JWSInvalid)
  end.

(** Validation of the registered claims by [jwtVerify] without options:
    [iat], [nbf] and [exp] must be numbers when present, [nbf] must not
    lie in the future and [exp] must lie in the future. *)
Definition jwt_claims_set (payload : Claims) (now : Z) : Completion Claims :=
  let now_s := epoch now in
  do _ <- match payload !! "iat" with
          | Some (JNum _) | None => Return tt
          | Some _ => Throw (JoseErr JWTClaimValidationFailed)
          end ;
  do _ <- match payload !! "nbf" with
          | Some (JNum nbf) =>
              if now_s <? nbf then Throw (JoseErr JWTClaimValidationFailed)
              else Return tt
          | None => Return tt
          | Some _ => Throw (JoseErr JWTClaimValidationFailed)
          end ;
  do _ <- match payload !! "exp" with
          | Some (JNum exp) =>
              if exp <=? now_s then Throw (JoseErr JWTExpired) else Return tt
          | None => Return tt
          | Some _ => Throw (JoseErr JWTClaimValidationFailed)
          end ;
  Return payload.

(** [jose.jwtVerify(jwt, key)]; the result is the payload. *)
Definition jwtVerify (jwt : string) (key : Uint8Array) (now : Z) : Completion Claims :=
  do payload <- verify_compact jwt key ;
  jwt_claims_set payload now.
End WithLib.

End Jose.
Import Jose.

(** ** The [tweetnacl] library *)

Module Nacl.
Section WithPrimitive.
(** [crypto_sign_open(...) >= 0]: the Ed25519 check of a 64-byte
    signature over a message under a 32-byte public key. *)
Variable crypto_sign_open_ok : Uint8Array -> Uint8Array -> Uint8Array -> bool.

(** [nacl.sign.detached.verify(msg, sig, publicKey)] *)
Definition sign_detached_verify (msg sig publicKey : Uint8Array) : Completion bool :=
  if negb (length sig =? 64)%nat then Throw (Error "bad signature size")
  else if negb (length publicKey =? 32)%nat then Throw (Error "bad public key size")
  else Return (crypto_sign_open_ok msg sig publicKey).
End WithPrimitive.
End Nacl.

(** ** [src/lib/auth.ts] *)

Module Auth.

(** The argument [signature] of [verifyWalletSignature]; a field that is
    [undefined] is [None]. *)
Record WalletSignature := {
  signature : option string;
  publicKey : option string
}.

(** Lines 4-6: the module does not load without [JWT_SECRET]. *)
Definition load (JWT_SECRET : option string) : Completion string :=
  match JWT_SECRET with
  | Some (String c r) => Return (String c r)
  | _ => Throw (Error "JWT_SECRET is not defined")
  end.

Definition NONCE_EXPIRY_MS : Z := 5 * 60 * 1000.

(** [v !== s] for a claim [v] that may be absent and a string [s]. *)
Definition strict_ne (v : option JsValue) (s : string) : bool :=
  match v with
  | Some (JStr t) => negb (String.eqb t s)
  | _ => true
  end.

(** [x.slice(2)] where [x] may be [undefined]. *)
Definition slice_2 (x : option string) : Completion string :=
  match x with
  | Some s => Return (slice2 s)
  | None => Throw (TypeError "Cannot read properties of undefined (reading 'slice')")
  end.

Section WithEnvironment.
Context {J : JoseLib}.
Variable crypto_sign_open_ok : Uint8Array -> Uint8Array -> Uint8Array -> bool.
(** [process.env.JWT_SECRET], as accepted by [load]. *)
Variable JWT_SECRET : string.

Definition secret : Uint8Array := TextEncoder_encode JWT_SECRET.

Definition createToken (address : string) (now : Z) : Completion string :=
  sign
    (setExpirationTime secs_24h now
       (setProtectedHeader "HS256"
          (new_SignJWT {[ "address" := JStr address ]})))
    secret.

Definition verifyToken (token : option string) (now : Z)
  : Completion (option Claims) :=
  match token with
  | Some (String c r) =>
      try_catch
        (do payload <- jwtVerify (String c r) secret now ;
         Return (Some payload))
        (fun error => Return None)
  | _ => Return None
  end.

Definition createNonce (now : Z) (randomBytes : Uint8Array) : Completion string :=
  let timestamp := Number_toString now in
  let randomHex := hex_of_bytes randomBytes in
  let payload := timestamp +:+ "|" +:+ randomHex in
  do signature <- sign
                 (setProtectedHeader "HS256"
                    (new_SignJWT {[ "payload" := JStr payload ]}))
                 secret ;
  Return (payload +:+ "|" +:+ signature).

Definition validateNonce (nonce : string) (now : Z) : Completion bool :=
  try_catch
    (let parts := split "|" nonce in
     if negb (length parts =? 3)%nat then Return false
     else
       let timestamp := nth 0 parts EmptyString in
       let random := nth 1 parts EmptyString in
       let signature := nth 2 parts EmptyString in
       let payload := timestamp +:+ "|" +:+ random in
       do returned <- try_catch
                     (do verified <- jwtVerify signature secret now ;
                      if strict_ne (verified !! "payload") payload
                      then Return (Some false)
                      else Return None)
                     (fun error => Return (Some false)) ;
       match returned with
       | Some b => Return b
       | None =>
           let nonceTimestamp := parseInt timestamp in
           let age := JS.sub (Int now) nonceTimestamp in
           if JS.gt age (Int NONCE_EXPIRY_MS) then Return false
           else if JS.lt age (Int (-60000)) then Return false
           else Return true
       end)
    (fun error => Return false).

Definition verifyWalletSignature
  (message : string) (envelope : WalletSignature) (address : string)
  : Completion bool :=
  try_catch
    (do sigHex <- slice_2 (signature envelope) ;
     do keyHex <- slice_2 (publicKey envelope) ;
     do verified <- Nacl.sign_detached_verify crypto_sign_open_ok
                   (TextEncoder_encode message)
                   (Buffer_from_hex sigHex)
                   (Buffer_from_hex keyHex) ;
     if negb verified then Return false
     else Return true)
    (fun error => Return false).
End WithEnvironment.

End Auth.

(** ** The route handlers *)

Module Http.

Inductive ResponseBody :=
| ErrorBody (error : string)
| TokenBody (token : string) (address : string)
| CheckBody (authenticated : bool) (address : option JsValue).

Record Response := {
  status : Z;
  body : ResponseBody
}.

(** [NextResponse.json(body, { status })]; the status is 200 when omitted. *)
Definition NextResponse_json (b : ResponseBody) (init : option Z) : Response :=
  {| status := match init with Some st => st | None => 200 end; body := b |}.

End Http.
Import Http.

(** [src/app/api/auth/create-jwt/route.ts] *)
Module CreateJwt.

Definition AUTH_MESSAGE : string :=
  "Sign message to login to multiwallet. By signing this message, you agree to the Terms of Service and Privacy Policy of multiwallet at https://multiwallet.trade/tos".

(** The object that [request.json()] gives; a property that is absent (or
    [null]) is [None]. *)
Record Body := {
  address : option string;
  signature : option Auth.WalletSignature;
  nonce : option string
}.

(** What [await request.json()] settles to: it rejects when the body is not
    JSON, and the JSON text [null] parses to [null]. *)
Inductive RequestJson :=
| JsonNull
| JsonObject (b : Body).

(** [const { address, signature, nonce } = ...] *)
Definition destructure (parsed : RequestJson) : Completion Body :=
  match parsed with
  | JsonObject b => Return b
  | JsonNull => Throw (TypeError "Cannot destructure property 'address' of null")
  end.

(** [!o] for a possibly absent object: an object is truthy. *)
Definition truthy_object {A} (o : option A) : bool :=
  match o with
  | Some _ => true
  | None => false
  end.

(** The value read through a property that passed the truthiness test; the
    defaults are never reached. *)
Definition no_envelope : Auth.WalletSignature :=
  {| Auth.signature := None; Auth.publicKey := None |}.

Section WithEnvironment.
Context {J : JoseLib}.
Variable crypto_sign_open_ok : Uint8Array -> Uint8Array -> Uint8Array -> bool.
Variable JWT_SECRET : string.

Definition POST (request_json : Completion RequestJson) (now : Z) : Completion Response :=
  try_catch
    (do parsed <- request_json ;
     do b <- destructure parsed ;
     if negb (truthy_string (address b)) || negb (truthy_object (signature b))
        || negb (truthy_string (nonce b))
     then Return (NextResponse_json
             (ErrorBody "Missing required fields: address, signature, and nonce are required")
             (Some 400))
     else
       let addr := default EmptyString (address b) in
       let envelope := default no_envelope (signature b) in
       if negb (truthy_string (Auth.signature envelope))
          || negb (truthy_string (Auth.publicKey envelope))
       then Return (NextResponse_json
               (ErrorBody "Invalid signature format: must include signature and publicKey")
               (Some 400))
       else
         do nonceValid <- Auth.validateNonce JWT_SECRET (default EmptyString (nonce b)) now ;
         if negb nonceValid
         then Return (NextResponse_json
                 (ErrorBody "Invalid or expired nonce. Please request a new nonce and try again.")
                 (Some 401))
         else
           do signatureValid <-
             Auth.verifyWalletSignature crypto_sign_open_ok AUTH_MESSAGE envelope addr ;
           if negb signatureValid
           then Return (NextResponse_json
                   (ErrorBody "Invalid signature. Signature verification failed.")
                   (Some 401))
           else
             do token <- Auth.createToken JWT_SECRET addr now ;
             Return (NextResponse_json (TokenBody token addr) None))
    (fun error =>
       Return (NextResponse_json
         (ErrorBody "Authentication failed. Please try again.") (Some 500))).
End WithEnvironment.

End CreateJwt.

(** [src/app/api/auth/check/route.ts] *)
Module Check.

Section WithEnvironment.
Context {J : JoseLib}.
Variable JWT_SECRET : string.

(** [authToken] is [cookieStore.get('authToken')?.value]. *)
Definition GET (authToken : option string) (now : Z) : Completion Response :=
  try_catch
    (let token := authToken in
     if negb (truthy_string token)
     then Return (NextResponse_json (CheckBody false None) (Some 401))
     else
       do verified <- Auth.verifyToken JWT_SECRET token now ;
       match verified with
       | None => Return (NextResponse_json (CheckBody false None) (Some 401))
       | Some payload =>
           Return (NextResponse_json (CheckBody true (payload !! "address")) None)
       end)
    (fun error => Return (NextResponse_json (CheckBody false None) (Some 500))).
End WithEnvironment.

End Check.

(** ** Further string primitives *)

Module JSString.

(** [c.toLowerCase()] for one code unit below 256: the letters [A-Z] and
    the capital letters of Latin-1 ([U+00C0]-[U+00DE] without the
    multiplication sign) move up by 32. *)
Definition toLowerCase_char (c : ascii) : ascii :=
  let n := N_of_ascii c in
  if ((65 <=? n) && (n <=? 90) || (192 <=? n) && (n <=? 222) && negb (n =? 215))%N
  then ascii_of_N (n + 32)
  else c.

(** [s.toLowerCase()] *)
Fixpoint toLowerCase (s : string) : string :=
  match s with
  | EmptyString => EmptyString
  | String c r => String (toLowerCase_char c) (toLowerCase r)
  end.

(** [fill.repeat(n)] for a one-character [fill]. *)
Fixpoint repeat_char (n : nat) (fill : ascii) : string :=
  match n with
  | O => EmptyString
  | S m => String fill (repeat_char m fill)
  end.

(** [s.padStart(targetLength, fill)] for a one-character [fill]. *)
Definition padStart (targetLength : nat) (fill : ascii) (s : string) : string :=
  repeat_char (targetLength - String.length s) fill +:+ s.

(** [s.replace(/^0x/, "")] *)
Definition replace_leading_0x (s : string) : string :=
  match s with
  | String "0" (String "x" r) => r
  | _ => s
  end.

(** The names of the properties that every plain object inherits from
    [Object.prototype]. *)
Definition Object_prototype_names : list string :=
  [ "constructor"; "__defineGetter__"; "__defineSetter__"; "hasOwnProperty";
    "__lookupGetter__"; "__lookupSetter__"; "isPrototypeOf"; "propertyIsEnumerable";
    "toString"; "valueOf"; "__proto__"; "toLocaleString" ].

(** What [o[key]] gives for a plain object [o]: an own property, a member
    inherited from [Object.prototype], or [undefined]. *)
Inductive Property (A : Type) :=
| Own (a : A)
| Inherited (name : string)
| Undefined.
Arguments Own {A} a.
Arguments Inherited {A} name.
Arguments Undefined {A}.

Definition get_property {A} (o : gmap string A) (key : string) : Property A :=
  match o !! key with
  | Some a => Own a
  | None =>
      if existsb (String.eqb key) Object_prototype_names then Inherited key
      else Undefined
  end.

End JSString.
Import JSString.

(** [src/app/api/auth/nonce/route.ts] *)
Module NonceRoute.

(** [new NextResponse(body, { status, headers })]; the status is 200 when
    omitted. *)
Record TextResponse := {
  status : Z;
  body : string;
  headers : list (string * string)
}.

Section WithEnvironment.
Context {J : JoseLib}.
Variable JWT_SECRET : string.

Definition GET (now : Z) (randomBytes : Uint8Array) : Completion TextResponse :=
  try_catch
    (do nonce <- Auth.createNonce JWT_SECRET now randomBytes ;
     Return {| status := 200;
               body := nonce;
               headers := [ ("Content-Type", "text/plain");
                            ("Cache-Control", "no-store, no-cache, must-revalidate") ] |})
    (fun error =>
       Return {| status := 500;
                 body := "Failed to generate nonce";
                 headers := [ ("Content-Type", "text/plain") ] |}).
End WithEnvironment.

End NonceRoute.

(** Cookies that a response sets: the argument of [response.cookies.set]. *)
Module Cookies.

Record Cookie := {
  name : string;
  value : string;
  httpOnly : bool;
  secure : bool;
  sameSite : string;
  maxAge : Z;
  path : string
}.

(** The body of a response of the two wallet routes: [{ error }] or
    [{ success: true }]. *)
Inductive Body :=
| ErrorBody (error : string)
| SuccessBody.

Record Response := {
  status : Z;
  body : Body;
  cookies : list Cookie
}.

(** [NextResponse.json(body, { status })] *)
Definition NextResponse_json (b : Body) (init : option Z) : Response :=
  {| status := match init with Some st => st | None => 200 end;
     body := b;
     cookies := [] |}.

(** [response.cookies.set(cookie)]: the new cookie replaces one of the
    same name. *)
Definition cookies_set (cookie : Cookie) (response : Response) : Response :=
  {| status := status response;
     body := body response;
     cookies :=
       filter (fun c => negb (String.eqb (name c) (name cookie))) (cookies response)
       ++ [cookie] |}.

(** [process.env.NODE_ENV === 'production'] *)
Definition is_production (NODE_ENV : option string) : bool :=
  match NODE_ENV with
  | Some env => String.eqb env "production"
  | None => false
  end.

End Cookies.

(** [src/app/api/auth/wallet-login/route.ts] *)
Module WalletLogin.

(** What [await request.json()] settles to; the property [token] is [None]
    when it is absent or [null]. *)
Inductive RequestJson :=
| JsonNull
| JsonObject (token : option string).

(** [const { token } = ...] *)
Definition destructure (parsed : RequestJson) : Completion (option string) :=
  match parsed with
  | JsonObject token => Return token
  | JsonNull => Throw (TypeError "Cannot destructure property 'token' of null")
  end.

Section WithEnvironment.
Context {J : JoseLib}.
Variable JWT_SECRET : string.
Variable NODE_ENV : option string.

Definition POST (request_json : Completion RequestJson) (now : Z)
  : Completion Cookies.Response :=
  try_catch
    (do parsed <- request_json ;
     do token <- destructure parsed ;
     if negb (truthy_string token)
     then Return (Cookies.NextResponse_json (Cookies.ErrorBody "Token is required") (Some 400))
     else
       do verified <- Auth.verifyToken JWT_SECRET token now ;
       match verified with
       | None =>
           Return (Cookies.NextResponse_json (Cookies.ErrorBody "Invalid token") (Some 401))
       | Some _ =>
           let response := Cookies.NextResponse_json Cookies.SuccessBody None in
           Return
             (Cookies.cookies_set
                {| Cookies.name := "authToken";
                   Cookies.value := default EmptyString token;
                   Cookies.httpOnly := true;
                   Cookies.secure := Cookies.is_production NODE_ENV;
                   Cookies.sameSite := "lax";
                   Cookies.maxAge := 60 * 60 * 24;
                   Cookies.path := "/" |}
                response)
       end)
    (fun error =>
       Return (Cookies.NextResponse_json
                 (Cookies.ErrorBody "Failed to set auth cookie") (Some 500))).
End WithEnvironment.

End WalletLogin.

(** [src/app/api/auth/wallet-logout/route.ts] *)
Module WalletLogout.

Definition POST (NODE_ENV : option string) : Cookies.Response :=
  let response := Cookies.NextResponse_json Cookies.SuccessBody None in
  Cookies.cookies_set
    {| Cookies.name := "authToken";
       Cookies.value := EmptyString;
       Cookies.httpOnly := true;
       Cookies.secure := Cookies.is_production NODE_ENV;
       Cookies.sameSite := "lax";
       Cookies.maxAge := 0;
       Cookies.path := "/" |}
    response.

End WalletLogout.

(** [src/app/protected/[walletAddress]/page.tsx] *)
Module Protected.

(** What the page renders: the notice for a visitor who is not authorised,
    or the page of the authenticated address. *)
Inductive Page :=
| Unauthorized
| Authenticated (address : string).

(** [v.toLowerCase()] for a claim [v] that may be absent or not a string. *)
Definition toLowerCase_claim (v : option JsValue) : Completion string :=
  match v with
  | Some (JStr s) => Return (toLowerCase s)
  | Some _ => Throw (TypeError "verified.address.toLowerCase is not a function")
  | None =>
      Throw (TypeError "Cannot read properties of undefined (reading 'toLowerCase')")
  end.

(** [{verified.address}] where the page renders it. *)
Definition address_text (v : option JsValue) : string :=
  match v with
  | Some (JStr s) => s
  | _ => EmptyString
  end.

Section WithEnvironment.
Context {J : JoseLib}.
Variable JWT_SECRET : string.

(** [authToken] is [cookieStore.get('authToken')?.value]. *)
Definition ProtectedPage (walletAddress : string) (authToken : option string) (now : Z)
  : Completion Page :=
  let token := authToken in
  do verified <- Auth.verifyToken JWT_SECRET token now ;
  match verified with
  | None => Return Unauthorized
  | Some payload =>
      do lowered <- toLowerCase_claim (payload !! "address") ;
      let isAuthorized := String.eqb lowered (toLowerCase walletAddress) in
      if negb isAuthorized then Return Unauthorized
      else Return (Authenticated (address_text (payload !! "address")))
  end.
End WithEnvironment.

End Protected.

(** [standardizeAddress] of the utilities module *)
Module Utils.

Definition standardizeAddress (address : string) : Completion string :=
  let cleanAddress := replace_leading_0x address in
  let cleanAddress :=
    if (String.length cleanAddress <? 64)%nat then padStart 64 "0" cleanAddress
    else cleanAddress in
  if (64 <? String.length cleanAddress)%nat
  then Throw (Error ("Address " +:+ address +:+ " is not a valid address"))
  else Return ("0x" +:+ cleanAddress).

End Utils.

(** [src/lib/abiStorage.ts] *)
Module AbiStorage.

Section WithAbi.
(** The type [ModuleABI] and the constant [supraAccountABI] of
    [./abis/supra_account]. *)
Variable ModuleABI : Type.
Variable supraAccountABI : ModuleABI.

(** The object [abiStorage]; its one key is computed when the module
    loads. *)
Definition abiStorage : gmap string (gmap string ModuleABI) :=
  match Utils.standardizeAddress "0x1" with
  | Return key => {[ key := {[ "supra_account" := supraAccountABI ]} ]}
  | Throw _ => ∅
  end.

(** The first index, [abiStorage[standardizedAddress]], is a plain lookup:
    a standardized address is never the name of a member of
    [Object.prototype] (lemma [standardizeAddress_not_inherited]).  The
    second index can be any string, so it sees the inherited members. *)
Definition getStoredABI (moduleAddress moduleName : string)
  : Completion (option (Property ModuleABI)) :=
  do standardizedAddress <- Utils.standardizeAddress moduleAddress ;
  let normalizedName := moduleName in
  match abiStorage !! standardizedAddress with
  | Some modules =>
      match get_property modules normalizedName with
      | Undefined => Return None
      | found => Return (Some found)
      end
  | None => Return None
  end.
End WithAbi.

End AbiStorage.

(** [stringToHex] of [useConversionUtils] in
    [src/hooks/useSupraMultiWallet.ts] *)
Module Conversion.

(** The loop [for (i = 0; i < bytes.length; i++) hexString += ...]. *)
Definition stringToHex (str : string) : string :=
  let bytes := TextEncoder_encode str in
  fold_left (fun hexString b => hexString +:+ padStart2 (byte_toString16 b)) bytes EmptyString.

End Conversion.

(** The storage helpers of [src/hooks/useSupraMultiWallet.ts] *)
Module WalletStorage.

(** [s.split('; ')] *)
Fixpoint split_semicolon_space (s : string) : list string :=
  match s with
  | EmptyString => [EmptyString]
  | String c r =>
      match r with
      | String d r' =>
          if Ascii.eqb c ";" && Ascii.eqb d " "
          then EmptyString :: split_semicolon_space r'
          else match split_semicolon_space r with
               | [] => [String c EmptyString]
               | p :: ps => String c p :: ps
               end
      | EmptyString => [String c EmptyString]
      end
  end.

(** [s.startsWith(prefix)] *)
Fixpoint startsWith (prefix s : string) : bool :=
  match prefix, s with
  | EmptyString, _ => true
  | String a p, String b r => Ascii.eqb a b && startsWith p r
  | String _ _, EmptyString => false
  end.

(** [parts.join('=')] *)
Fixpoint join_equals (parts : list string) : string :=
  match parts with
  | [] => EmptyString
  | [p] => p
  | p :: ps => p +:+ "=" +:+ join_equals ps
  end.

Definition STORAGE_KEY : string := "multiwallet.selectedWallet".

(** [['starkey', 'ribbit'].includes(stored)] *)
Definition is_wallet_type (stored : string) : bool :=
  existsb (String.eqb stored) ["starkey"; "ribbit"].

(** What reading a storage of [window] gives: the getter may throw, the
    storage may be missing, and [getItem(STORAGE_KEY)] may throw or return
    [null] or a string. *)
Abbreviation StorageRead := (Completion (option (Completion (option string)))).

Section WithBrowser.
Variable decodeURIComponent : string -> Completion string.

(** [document] is [None] where [typeof document === 'undefined']; else it
    is what reading [document.cookie] gives. *)
Definition getCookie (document : option (Completion string)) (name : string)
  : Completion (option string) :=
  match document with
  | None => Return None
  | Some document_cookie =>
      do cookie <- document_cookie ;
      let found :=
        find (fun r => startsWith (name +:+ "=") r) (split_semicolon_space cookie) in
      match found with
      | Some matched =>
          do decoded <- decodeURIComponent (join_equals (tail (split "=" matched))) ;
          Return (Some decoded)
      | None => Return None
      end
  end.

(** One [try] block of [getStoredWalletType] over a storage: [Some w] when
    the block returns [w], [None] when control goes past it. *)
Definition storage_block (storage : StorageRead) : option string :=
  match
    try_catch
      (do present <- storage ;
       match present with
       | Some getItem =>
           do stored <- getItem ;
           if truthy_string stored && is_wallet_type (default EmptyString stored)
           then Return stored
           else Return None
       | None => Return None
       end)
      (fun e => Return None)
  with
  | Return returned => returned
  | Throw _ => None
  end.

Definition cookie_block (document : option (Completion string)) : option string :=
  match
    try_catch
      (match document with
       | Some _ =>
           do stored <- getCookie document STORAGE_KEY ;
           if truthy_string stored && is_wallet_type (default EmptyString stored)
           then Return stored
           else Return None
       | None => Return None
       end)
      (fun e => Return None)
  with
  | Return returned => returned
  | Throw _ => None
  end.

(** [window] is [None] where [typeof window === 'undefined']; else it holds
    what reading [window.localStorage] and [window.sessionStorage] gives. *)
Definition getStoredWalletType
  (window : option (StorageRead * StorageRead)) (document : option (Completion string))
  : string :=
  match window with
  | None => "starkey"
  | Some (localStorage, sessionStorage) =>
      match storage_block localStorage with
      | Some stored => stored
      | None =>
          match storage_block sessionStorage with
          | Some stored => stored
          | None =>
              match cookie_block document with
              | Some stored => stored
              | None => "starkey"
              end
          end
      end
  end.
End WithBrowser.

End WalletStorage.

(** ** A reference implementation of the [jose] interface

    An executable stand-in for the compact serialisation, used to run the
    handlers on concrete requests.  The claims are written entry by entry in
    hexadecimal, and the tag is a keyed checksum; it has the shape of a
    compact serialisation but none of its cryptographic strength. *)

Module Reference.

Definition hex_of_string (s : string) : string :=
  hex_of_bytes (String.list_byte_of_string s).

Definition string_of_hex (h : string) : string :=
  String.string_of_list_byte (Buffer_from_hex h).

Definition mix (acc : Z) (b : byte) : Z :=
  (acc * 31 + Z.of_N (Byte.to_N b)) mod 65536.

Definition checksum (key : Uint8Array) (msg : string) : Uint8Array :=
  let h := fold_left mix (key ++ String.list_byte_of_string msg ++ key) 7 in
  [byte_of_Z (h / 256); byte_of_Z (h mod 256)].

Definition encode_value (v : JsValue) : string :=
  match v with
  | JNull => "N"
  | JBool true => "T"
  | JBool false => "U"
  | JNum n => String "I" (hex_of_string (Number_toString n))
  | JStr s => String "S" (hex_of_string s)
  end.

Definition decode_value (s : string) : option JsValue :=
  match s with
  | String "N" EmptyString => Some JNull
  | String "T" EmptyString => Some (JBool true)
  | String "U" EmptyString => Some (JBool false)
  | String "I" h =>
      match parseInt (string_of_hex h) with
      | Int n => Some (JNum n)
      | NaN => None
      end
  | String "S" h => Some (JStr (string_of_hex h))
  | _ => None
  end.

Definition encode_entry (e : string * JsValue) : string :=
  hex_of_string (fst e) +:+ "-" +:+ encode_value (snd e).

Definition decode_entry (s : string) : option (string * JsValue) :=
  match split "-" s with
  | [k; v] =>
      match decode_value v with
      | Some w => Some (string_of_hex k, w)
      | None => None
      end
  | _ => None
  end.

Fixpoint encode_entries (l : list (string * JsValue)) : string :=
  match l with
  | [] => EmptyString
  | e :: r => encode_entry e +:+ "_" +:+ encode_entries r
  end.

Fixpoint decode_parts (parts : list string) : option (list (string * JsValue)) :=
  match parts with
  | [] => None
  | [EmptyString] => Some []
  | p :: r =>
      match decode_entry p, decode_parts r with
      | Some e, Some l => Some (e :: l)
      | _, _ => None
      end
  end.

Definition ref_sign (claims : Claims) (key : Uint8Array) : string :=
  let body := encode_entries (map_to_list claims) in
  "HS256." +:+ body +:+ "." +:+ hex_of_bytes (checksum key body).

Definition ref_verify (jwt : string) (key : Uint8Array) : Completion Claims :=
  match split "." jwt with
  | [header; body; tag] =>
      if negb (String.eqb header "HS256") then Throw (JoseErr JWSInvalid)
      else if negb (String.eqb tag (hex_of_bytes (checksum key body)))
      then Throw (JoseErr JWSSignatureVerificationFailed)
      else match decode_parts (split "_" body) with
           | Some l => Return (list_to_map l)
           | None => Throw (JoseErr JWSInvalid)
           end
  | _ => Throw (JoseErr JWSInvalid)
  end.

(** A stand-in for the Ed25519 check: it accepts a signature whose first
    32 bytes repeat the public key. *)
Definition ref_sign_open (msg sig publicKey : Uint8Array) : bool :=
  String.eqb (String.string_of_list_byte (take 32 sig))
    (String.string_of_list_byte publicKey).

End Reference.

(** ** Vocabulary of the statements *)

(** How often a character occurs in a string. *)
Fixpoint count_char (sep : ascii) (s : string) : nat :=
  match s with
  | EmptyString => 0
  | String c r => (if Ascii.eqb c sep then 1 else 0) + count_char sep r
  end.

(** The string with the character at index [i] replaced. *)
Fixpoint set_char (i : nat) (c : ascii) (s : string) : string :=
  match s, i with
  | EmptyString, _ => EmptyString
  | String _ r, O => String c r
  | String a r, S j => String a (set_char j c r)
  end.

(** The value of a decimal numeral read from the left, after [acc]. *)
Fixpoint uint_value (d : Decimal.uint) (acc : Z) : Z :=
  match d with
  | Decimal.Nil => acc
  | Decimal.D0 l => uint_value l (acc * 10 + 0)
  | Decimal.D1 l => uint_value l (acc * 10 + 1)
  | Decimal.D2 l => uint_value l (acc * 10 + 2)
  | Decimal.D3 l => uint_value l (acc * 10 + 3)
  | Decimal.D4 l => uint_value l (acc * 10 + 4)
  | Decimal.D5 l => uint_value l (acc * 10 + 5)
  | Decimal.D6 l => uint_value l (acc * 10 + 6)
  | Decimal.D7 l => uint_value l (acc * 10 + 7)
  | Decimal.D8 l => uint_value l (acc * 10 + 8)
  | Decimal.D9 l => uint_value l (acc * 10 + 9)
  end.

(** Digits of the lower-case hexadecimal notation. *)
Definition is_lower_hex (c : ascii) : bool :=
  let n := Z.of_N (N_of_ascii c) in
  ((48 <=? n) && (n <=? 57)) || ((97 <=? n) && (n <=? 102)).

(** A string of hexadecimal digit pairs, nothing else. *)
Fixpoint is_hex_string (s : string) : bool :=
  match s with
  | EmptyString => true
  | String a (String b r) =>
      match unhex a, unhex b with
      | Some _, Some _ => is_hex_string r
      | _, _ => false
      end
  | String _ EmptyString => false
  end.

(** A well-formed field of a signature envelope: [0x] and hexadecimal
    digit pairs. *)
Definition is_0x_hex (s : string) : bool :=
  match s with
  | String "0" (String "x" h) => is_hex_string h
  | _ => false
  end.

(** The three segments of a nonce, as [validateNonce] reads them. *)
Definition nonce_timestamp (nonce : string) : string := nth 0 (split "|" nonce) EmptyString.
Definition nonce_random (nonce : string) : string := nth 1 (split "|" nonce) EmptyString.
Definition nonce_signature (nonce : string) : string := nth 2 (split "|" nonce) EmptyString.

(** [now - parseInt(timestamp, 10)] *)
Definition nonce_age (nonce : string) (now : Z) : JsNum :=
  JS.sub (Int now) (parseInt (nonce_timestamp nonce)).

(** The signature segment verifies under the key as a token whose claim
    [payload] is the string [timestamp|random]. *)
Definition nonce_mac_authentic {J : JoseLib} (key : Uint8Array) (nonce : string) (now : Z) : Prop :=
  exists verified,
    jwtVerify (nonce_signature nonce) key now = Return verified /\
    verified !! "payload" =
      Some (JStr (nonce_timestamp nonce +:+ "|" +:+ nonce_random nonce)).

(** The claims set that [createToken] signs. *)
Definition token_claims (address : string) (issued : Z) : Claims :=
  <["exp" := JNum (epoch issued + 24 * 60 * 60)]> {[ "address" := JStr address ]}.

(** What the specification asks of the claims of a token: the address, an
    issuance time, and the expiry twenty-four hours after the issuance. *)
Definition encodes_address_issuedAt_expiry
  (payload : Claims) (address : string) (issued : Z) : Prop :=
  payload !! "address" = Some (JStr address) /\
  (exists iat, payload !! "iat" = Some iat) /\
  payload !! "exp" = Some (JNum (epoch issued + 24 * 60 * 60)).

(** The signature check of [validateNonce] as a boolean. *)
Definition signature_check {J : JoseLib} (JWT_SECRET nonce : string) (now : Z) : bool :=
  match jwtVerify (nonce_signature nonce) (Auth.secret JWT_SECRET) now with
  | Return verified =>
      negb (Auth.strict_ne (verified !! "payload")
              (nonce_timestamp nonce +:+ "|" +:+ nonce_random nonce))
  | Throw _ => false
  end.

(** The nonce that [createNonce] builds, segment by segment. *)
Definition created_nonce {J : JoseLib} (JWT_SECRET : string) (now : Z)
  (randomBytes : Uint8Array) : string :=
  let payload := Number_toString now +:+ "|" +:+ hex_of_bytes randomBytes in
  payload +:+ "|" +:+ sign_compact {[ "payload" := JStr payload ]} (Auth.secret JWT_SECRET).

(** ** Facts about the string primitives *)

Section SplitFacts.
Variable sep : ascii.

Lemma split_not_nil (s : string) : split sep s <> [].
Proof.
  destruct s as [|c r]; simpl; [discriminate|].
  destruct (Ascii.eqb c sep); [discriminate|].
  destruct (split sep r); discriminate.
Qed.

Lemma length_split (s : string) :
  length (split sep s) = S (count_char sep s).
Proof.
  induction s as [|c r IH]; simpl; [reflexivity|].
  destruct (Ascii.eqb c sep); simpl.
  - now rewrite IH.
  - destruct (split sep r) as [|p ps] eqn:E; simpl in *; [discriminate|exact IH].
Qed.

Lemma count_char_app (a b : string) :
  count_char sep (a +:+ b) = (count_char sep a + count_char sep b)%nat.
Proof.
  induction a as [|c r IH]; simpl; [reflexivity|].
  rewrite IH. lia.
Qed.

Lemma split_absent (s : string) :
  count_char sep s = 0%nat -> split sep s = [s].
Proof.
  induction s as [|c r IH]; simpl; [reflexivity|].
  destruct (Ascii.eqb c sep); simpl; [discriminate|].
  intros Hr. now rewrite (IH Hr).
Qed.

Lemma split_app (a b : string) :
  count_char sep a = 0%nat ->
  split sep (a +:+ String sep b) = a :: split sep b.
Proof.
  induction a as [|c r IH]; simpl.
  - intros _. now rewrite Ascii.eqb_refl.
  - destruct (Ascii.eqb c sep); simpl; [discriminate|].
    intros Hr. now rewrite (IH Hr).
Qed.

(** A string is its parts joined by the separator, and no part contains
    the separator. *)
Lemma split_inv (s : string) :
  forall p ps, split sep s = p :: ps ->
    count_char sep p = 0%nat /\
    match ps with
    | [] => s = p
    | _ :: _ => exists r, s = p +:+ String sep r /\ split sep r = ps
    end.
Proof.
  induction s as [|c r IH]; simpl; intros p ps E.
  - injection E as <- <-. split; reflexivity.
  - destruct (Ascii.eqb c sep) eqn:Ec.
    + injection E as <- <-. split; [reflexivity|].
      apply Ascii.eqb_eq in Ec. subst c.
      destruct (split sep r) as [|q qs] eqn:Er; [now apply split_not_nil in Er|].
      exists r. split; [reflexivity | exact Er].
    + destruct (split sep r) as [|q qs] eqn:Er; [now apply split_not_nil in Er|].
      injection E as <- <-.
      destruct (IH q qs eq_refl) as [Hq Hs].
      split; [simpl; now rewrite Ec|].
      destruct qs as [|q' qs'].
      * now subst r.
      * destruct Hs as (t & -> & Ht). exists t. split; [reflexivity | exact Ht].
Qed.

Lemma split3_inv (s a b c : string) :
  split sep s = [a; b; c] ->
  s = a +:+ String sep (b +:+ String sep c) /\
  count_char sep a = 0%nat /\ count_char sep b = 0%nat /\ count_char sep c = 0%nat.
Proof.
  intros E.
  destruct (split_inv s _ _ E) as [Ha (r & -> & Er)].
  destruct (split_inv r _ _ Er) as [Hb (t & -> & Et)].
  destruct (split_inv t _ _ Et) as [Hc ->].
  repeat split; assumption.
Qed.

Lemma split3 (a b c : string) :
  count_char sep a = 0%nat -> count_char sep b = 0%nat -> count_char sep c = 0%nat ->
  split sep (a +:+ String sep (b +:+ String sep c)) = [a; b; c].
Proof.
  intros Ha Hb Hc.
  rewrite (split_app a _ Ha), (split_app b _ Hb), (split_absent c Hc).
  reflexivity.
Qed.

End SplitFacts.

Lemma set_char_count_other (sep c : ascii) (s : string) (i : nat) :
  c <> sep -> count_char sep s = 0%nat -> count_char sep (set_char i c s) = 0%nat.
Proof.
  intros Hc. revert i.
  induction s as [|a r IH]; intros i; simpl; [now destruct i|].
  destruct (Ascii.eqb a sep) eqn:Ea; [discriminate|]. simpl. intros Hr.
  destruct i as [|j]; simpl.
  - apply Ascii.eqb_neq in Hc. now rewrite Hc.
  - rewrite Ea. simpl. now apply IH.
Qed.

Lemma set_char_count_sep (sep : ascii) (s : string) (i : nat) (c0 : ascii) :
  String.get i s = Some c0 -> (0 < count_char sep (set_char i sep s))%nat.
Proof.
  revert i.
  induction s as [|a r IH]; intros i; simpl; [discriminate|].
  destruct i as [|j]; simpl.
  - intros _. rewrite Ascii.eqb_refl. lia.
  - intros Hg. specialize (IH j Hg). lia.
Qed.

Lemma set_char_changes (s : string) (i : nat) (c c0 : ascii) :
  String.get i s = Some c0 -> c <> c0 -> set_char i c s <> s.
Proof.
  revert i.
  induction s as [|a r IH]; intros i; simpl; [discriminate|].
  destruct i as [|j]; simpl.
  - intros [= ->] Hc E. injection E as E. now apply Hc.
  - intros Hg Hc E. injection E as E. now apply (IH j Hg Hc).
Qed.

(** *** Decimal numerals: [parseInt] reads what [toString] writes *)

Lemma parse_digits_uint (d : Decimal.uint) :
  forall a, parse_digits (Some a) (NilEmpty.string_of_uint d) = Some (uint_value d a).
Proof.
  induction d; intros a; cbn [NilEmpty.string_of_uint parse_digits uint_value];
    [reflexivity | ..]; apply IHd.
Qed.

Lemma of_uint_acc_value (d : Decimal.uint) :
  forall p, Z.pos (Pos.of_uint_acc d p) = uint_value d (Z.pos p).
Proof.
  induction d; intros p; cbn [Pos.of_uint_acc uint_value];
    [reflexivity | rewrite IHd; f_equal; lia ..].
Qed.

Lemma of_uint_value (d : Decimal.uint) :
  Z.of_N (Pos.of_uint d) = uint_value d 0.
Proof.
  induction d; cbn [Pos.of_uint uint_value];
    [reflexivity | exact IHd | cbn [Z.of_N]; rewrite of_uint_acc_value; reflexivity ..].
Qed.

(** Evaluates the character tests on the literal characters of the goal. *)
Ltac eval_chars :=
  repeat match goal with
    | |- context [is_whitespace (Ascii ?a ?b ?c ?d ?e ?f ?g ?h)] =>
        let v := eval vm_compute in (is_whitespace (Ascii a b c d e f g h)) in
        change (is_whitespace (Ascii a b c d e f g h)) with v
    | |- context [digit_value (Ascii ?a ?b ?c ?d ?e ?f ?g ?h)] =>
        let v := eval vm_compute in (digit_value (Ascii a b c d e f g h)) in
        change (digit_value (Ascii a b c d e f g h)) with v
    end.

Lemma parseInt_uint (d : Decimal.uint) :
  d <> Decimal.Nil ->
  parseInt (NilEmpty.string_of_uint d) = Int (uint_value d 0) /\
  parseInt (String "-" (NilEmpty.string_of_uint d)) = Int (- uint_value d 0).
Proof.
  intros Hd. unfold parseInt.
  destruct d; [congruence | ..];
    cbn [NilEmpty.string_of_uint trim_start uint_value]; eval_chars;
    cbn [parse_digits]; eval_chars; cbv iota beta zeta;
    rewrite parse_digits_uint; simpl (0 * 10 + _);
    (split; f_equal; destruct (uint_value d _); reflexivity).
Qed.

Lemma parseInt_Number_toString (n : Z) :
  parseInt (Number_toString n) = Int n.
Proof.
  unfold Number_toString.
  destruct n as [|p|p]; [reflexivity | ..]; cbn [Z.to_int NilZero.string_of_int].
  - pose proof (Unsigned.to_uint_nonnil p) as Hnil.
    unfold NilZero.string_of_uint.
    destruct (parseInt_uint _ Hnil) as [Hp _].
    destruct (Pos.to_uint p) eqn:E; [congruence | ..];
      rewrite Hp, <- of_uint_value, <- E, Unsigned.of_to; reflexivity.
  - pose proof (Unsigned.to_uint_nonnil p) as Hnil.
    unfold NilZero.string_of_uint.
    destruct (parseInt_uint _ Hnil) as [_ Hn].
    destruct (Pos.to_uint p) eqn:E; [congruence | ..];
      rewrite Hn, <- of_uint_value, <- E, Unsigned.of_to; reflexivity.
Qed.

Lemma count_char_uint (sep : ascii) (d : Decimal.uint) :
  digit_value sep = None -> count_char sep (NilEmpty.string_of_uint d) = 0%nat.
Proof.
  intros Hsep.
  induction d; cbn [NilEmpty.string_of_uint count_char]; [reflexivity | ..];
    rewrite IHd;
    match goal with
    | |- context [Ascii.eqb ?c sep] =>
        destruct (Ascii.eqb c sep) eqn:E; [apply Ascii.eqb_eq in E; subst sep; discriminate | reflexivity]
    end.
Qed.

Lemma count_char_Number_toString (sep : ascii) (n : Z) :
  digit_value sep = None -> sep <> "-"%char ->
  count_char sep (Number_toString n) = 0%nat.
Proof.
  intros Hsep Hminus. unfold Number_toString.
  assert (Hu : forall d, count_char sep (NilZero.string_of_uint d) = 0%nat).
  { intros d. unfold NilZero.string_of_uint.
    destruct d; try apply (count_char_uint sep _ Hsep).
    cbn [count_char]. destruct (Ascii.eqb "0" sep) eqn:E; [|reflexivity].
    apply Ascii.eqb_eq in E. subst sep. discriminate. }
  destruct n as [|p|p]; cbn [Z.to_int NilZero.string_of_int]; try apply Hu.
  cbn [count_char]. rewrite Hu.
  destruct (Ascii.eqb "-" sep) eqn:E; [|reflexivity].
  apply Ascii.eqb_eq in E. congruence.
Qed.

(** *** Characters of a string *)

Lemma string_forallb_app (p : ascii -> bool) (a b : string) :
  string_forallb p (a +:+ b) = string_forallb p a && string_forallb p b.
Proof.
  induction a as [|c r IH]; simpl; [reflexivity|].
  rewrite IH. now rewrite andb_assoc.
Qed.

Lemma string_forallb_impl (p q : ascii -> bool) (s : string) :
  (forall c, p c = true -> q c = true) ->
  string_forallb p s = true -> string_forallb q s = true.
Proof.
  intros Hpq. induction s as [|c r IH]; simpl; [reflexivity|].
  intros [Hc Hr]%andb_true_iff. now rewrite (Hpq c Hc), (IH Hr).
Qed.

Lemma string_forallb_count (p : ascii -> bool) (sep : ascii) (s : string) :
  p sep = false -> string_forallb p s = true -> count_char sep s = 0%nat.
Proof.
  intros Hsep. induction s as [|c r IH]; simpl; [reflexivity|].
  intros [Hc Hr]%andb_true_iff. rewrite (IH Hr).
  destruct (Ascii.eqb c sep) eqn:E; [|reflexivity].
  apply Ascii.eqb_eq in E. congruence.
Qed.

Lemma lower_hex_compact (c : ascii) :
  is_lower_hex c = true -> is_compact_char c = true.
Proof.
  destruct c as [[] [] [] [] [] [] [] []]; vm_compute; congruence.
Qed.

(** *** Hexadecimal: [Buffer.from(_, 'hex')] reads what the nonce code writes *)

Lemma hex_pair_shape (b : byte) :
  padStart2 (byte_toString16 b) =
  String (hex_digit (Byte.to_N b / 16)) (String (hex_digit (Byte.to_N b mod 16)) EmptyString).
Proof. destruct b; reflexivity. Qed.

Lemma hex_pair_lower (b : byte) :
  is_lower_hex (hex_digit (Byte.to_N b / 16)) = true /\
  is_lower_hex (hex_digit (Byte.to_N b mod 16)) = true.
Proof. destruct b; split; reflexivity. Qed.

Lemma hex_pair_decode (b : byte) (r : string) :
  Buffer_from_hex
    (String (hex_digit (Byte.to_N b / 16)) (String (hex_digit (Byte.to_N b mod 16)) r))
  = b :: Buffer_from_hex r.
Proof. destruct b; reflexivity. Qed.

Lemma hex_of_bytes_cons (b : byte) (bs : Uint8Array) :
  hex_of_bytes (b :: bs) =
  String (hex_digit (Byte.to_N b / 16))
    (String (hex_digit (Byte.to_N b mod 16)) (hex_of_bytes bs)).
Proof.
  unfold hex_of_bytes. cbn [map join_empty fold_right].
  now rewrite hex_pair_shape.
Qed.

Lemma hex_of_bytes_lower (bs : Uint8Array) :
  string_forallb is_lower_hex (hex_of_bytes bs) = true.
Proof.
  induction bs as [|b bs IH]; [reflexivity|].
  rewrite hex_of_bytes_cons. cbn [string_forallb].
  destruct (hex_pair_lower b) as [-> ->]. now rewrite IH.
Qed.

Lemma Buffer_from_hex_of_bytes (bs : Uint8Array) :
  Buffer_from_hex (hex_of_bytes bs) = bs.
Proof.
  induction bs as [|b bs IH]; [reflexivity|].
  now rewrite hex_of_bytes_cons, hex_pair_decode, IH.
Qed.

Lemma string_of_hex_of_string (s : string) :
  Reference.string_of_hex (Reference.hex_of_string s) = s.
Proof.
  unfold Reference.string_of_hex, Reference.hex_of_string.
  rewrite Buffer_from_hex_of_bytes. apply String.string_of_list_byte_of_string.
Qed.

Lemma hex_of_bytes_count (sep : ascii) (bs : Uint8Array) :
  is_lower_hex sep = false -> count_char sep (hex_of_bytes bs) = 0%nat.
Proof.
  intros Hsep. apply (string_forallb_count is_lower_hex); [exact Hsep|].
  apply hex_of_bytes_lower.
Qed.

(** *** The reference implementation satisfies the laws of the interface *)

Lemma encode_value_chars (v : JsValue) :
  string_forallb is_compact_char (Reference.encode_value v) = true /\
  count_char "-" (Reference.encode_value v) = 0%nat /\
  count_char "_" (Reference.encode_value v) = 0%nat /\
  count_char "." (Reference.encode_value v) = 0%nat.
Proof.
  assert (Hhex : forall s, string_forallb is_compact_char (Reference.hex_of_string s) = true).
  { intros s. apply (string_forallb_impl is_lower_hex); [apply lower_hex_compact|].
    apply hex_of_bytes_lower. }
  destruct v as [|[]|n|s]; cbn [Reference.encode_value string_forallb count_char];
    try (repeat split; reflexivity);
    rewrite Hhex; unfold Reference.hex_of_string;
    rewrite !hex_of_bytes_count by reflexivity; repeat split; reflexivity.
Qed.

Lemma decode_encode_value (v : JsValue) :
  Reference.decode_value (Reference.encode_value v) = Some v.
Proof.
  destruct v as [|[]|n|s]; try reflexivity; cbn [Reference.encode_value Reference.decode_value].
  - now rewrite string_of_hex_of_string, parseInt_Number_toString.
  - now rewrite string_of_hex_of_string.
Qed.

Lemma encode_entry_chars (e : string * JsValue) :
  string_forallb is_compact_char (Reference.encode_entry e) = true /\
  count_char "_" (Reference.encode_entry e) = 0%nat /\
  count_char "." (Reference.encode_entry e) = 0%nat /\
  Reference.encode_entry e <> EmptyString.
Proof.
  destruct (encode_value_chars (snd e)) as (Hc & _ & Hu & Hd).
  unfold Reference.encode_entry.
  change ("-" +:+ Reference.encode_value (snd e))
    with (String "-" (Reference.encode_value (snd e))).
  rewrite string_forallb_app, !count_char_app. cbn [string_forallb count_char].
  rewrite Hc, Hu, Hd. unfold Reference.hex_of_string.
  rewrite !hex_of_bytes_count by reflexivity.
  rewrite (string_forallb_impl is_lower_hex is_compact_char _ lower_hex_compact
             (hex_of_bytes_lower _)).
  repeat split; try reflexivity.
  destruct (hex_of_bytes _); discriminate.
Qed.

Lemma decode_encode_entry (e : string * JsValue) :
  Reference.decode_entry (Reference.encode_entry e) = Some e.
Proof.
  destruct e as [k v]. unfold Reference.decode_entry, Reference.encode_entry.
  cbn [fst snd].
  change ("-" +:+ Reference.encode_value v) with (String "-" (Reference.encode_value v)).
  rewrite split_app by (unfold Reference.hex_of_string; now apply hex_of_bytes_count).
  rewrite split_absent by apply encode_value_chars.
  now rewrite decode_encode_value, string_of_hex_of_string.
Qed.

Lemma decode_parts_cons (p : string) (r : list string) :
  p <> EmptyString ->
  Reference.decode_parts (p :: r) =
  match Reference.decode_entry p, Reference.decode_parts r with
  | Some e, Some l => Some (e :: l)
  | _, _ => None
  end.
Proof. destruct p; [congruence | reflexivity]. Qed.

Lemma encode_entries_chars (l : list (string * JsValue)) :
  string_forallb is_compact_char (Reference.encode_entries l) = true /\
  count_char "." (Reference.encode_entries l) = 0%nat.
Proof.
  induction l as [|e l [IHc IHd]]; [split; reflexivity|].
  destruct (encode_entry_chars e) as (Hc & _ & Hd & _).
  cbn [Reference.encode_entries].
  change ("_" +:+ Reference.encode_entries l) with (String "_" (Reference.encode_entries l)).
  rewrite string_forallb_app, count_char_app. cbn [string_forallb count_char].
  rewrite Hc, Hd, IHc, IHd. split; reflexivity.
Qed.

Lemma decode_encode_entries (l : list (string * JsValue)) :
  Reference.decode_parts (split "_" (Reference.encode_entries l)) = Some l.
Proof.
  induction l as [|e l IH]; [reflexivity|].
  destruct (encode_entry_chars e) as (_ & Hu & _ & Hne).
  cbn [Reference.encode_entries].
  change ("_" +:+ Reference.encode_entries l) with (String "_" (Reference.encode_entries l)).
  rewrite (split_app _ _ _ Hu), (decode_parts_cons _ _ Hne).
  now rewrite decode_encode_entry, IH.
Qed.

Lemma ref_sign_shape (claims : Claims) (key : Uint8Array) :
  Reference.ref_sign claims key =
  "HS256" +:+ String "."
    (Reference.encode_entries (map_to_list claims) +:+ String "."
       (hex_of_bytes
          (Reference.checksum key (Reference.encode_entries (map_to_list claims))))).
Proof. reflexivity. Qed.

Lemma ref_verify_sign (claims : Claims) (key : Uint8Array) :
  Reference.ref_verify (Reference.ref_sign claims key) key = Return claims.
Proof.
  rewrite ref_sign_shape. unfold Reference.ref_verify.
  rewrite split3; [| reflexivity | apply encode_entries_chars
                   | now apply hex_of_bytes_count].
  cbn [String.eqb negb]. rewrite String.eqb_refl. cbn [negb].
  rewrite decode_encode_entries.
  now rewrite list_to_map_to_list.
Qed.

Lemma ref_sign_alphabet (claims : Claims) (key : Uint8Array) :
  string_forallb is_compact_char (Reference.ref_sign claims key) = true.
Proof.
  rewrite ref_sign_shape, string_forallb_app. cbn [string_forallb].
  rewrite string_forallb_app. cbn [string_forallb].
  destruct (encode_entries_chars (map_to_list claims)) as [-> _].
  rewrite (string_forallb_impl is_lower_hex is_compact_char _ lower_hex_compact
             (hex_of_bytes_lower _)).
  reflexivity.
Qed.

Lemma ref_sign_nonempty (claims : Claims) (key : Uint8Array) :
  Reference.ref_sign claims key <> EmptyString.
Proof. rewrite ref_sign_shape. discriminate. Qed.

Definition reference_jose : JoseLib := {|
  sign_compact := Reference.ref_sign;
  verify_compact := Reference.ref_verify;
  verify_sign_compact := ref_verify_sign;
  sign_compact_alphabet := ref_sign_alphabet;
  sign_compact_nonempty := ref_sign_nonempty
|}.

(** *** Replacing one character *)

Lemma set_char_app_l (a b : string) (c : ascii) :
  forall i, (i < String.length a)%nat -> set_char i c (a +:+ b) = set_char i c a +:+ b.
Proof.
  induction a as [|x a IH]; intros i Hi; cbn [String.length] in Hi; [lia|].
  change (String x a +:+ b) with (String x (a +:+ b)).
  destruct i as [|j]; cbn [set_char]; [reflexivity|].
  rewrite IH by lia. reflexivity.
Qed.

Lemma set_char_app_r (a b : string) (c : ascii) (j : nat) :
  set_char (String.length a + j) c (a +:+ b) = a +:+ set_char j c b.
Proof.
  induction a as [|x a IH]; [reflexivity|].
  change (String x a +:+ b) with (String x (a +:+ b)).
  cbn [String.length Nat.add set_char]. rewrite IH. reflexivity.
Qed.

Lemma get_app_l (a b : string) :
  forall i, (i < String.length a)%nat -> String.get i (a +:+ b) = String.get i a.
Proof.
  induction a as [|x a IH]; intros i Hi; cbn [String.length] in Hi; [lia|].
  change (String x a +:+ b) with (String x (a +:+ b)).
  destruct i as [|j]; cbn [String.get]; [reflexivity|].
  apply IH. lia.
Qed.

Lemma get_app_r (a b : string) (j : nat) :
  String.get (String.length a + j) (a +:+ b) = String.get j b.
Proof.
  induction a as [|x a IH]; [reflexivity|].
  change (String x a +:+ b) with (String x (a +:+ b)).
  cbn [String.length Nat.add String.get]. exact IH.
Qed.

(** ** [auth.ts]: the nonce codec *)

Section NonceFacts.
Context {J : JoseLib}.
Variable JWT_SECRET : string.

Local Abbreviation secret := (Auth.secret JWT_SECRET).
Local Abbreviation validateNonce := (Auth.validateNonce JWT_SECRET).
Local Abbreviation createNonce := (Auth.createNonce JWT_SECRET).

Lemma strict_ne_false (v : option JsValue) (s : string) :
  Auth.strict_ne v s = false <-> v = Some (JStr s).
Proof.
  unfold Auth.strict_ne. split.
  - destruct v as [[| | |t]|]; try discriminate.
    intros E%negb_false_iff. apply String.eqb_eq in E. now subst.
  - intros ->. now rewrite String.eqb_refl.
Qed.

Lemma signature_check_spec (nonce : string) (now : Z) :
  signature_check JWT_SECRET nonce now = true <-> nonce_mac_authentic secret nonce now.
Proof.
  unfold signature_check, nonce_mac_authentic. split.
  - destruct (jwtVerify _ _ _) as [verified|e]; [|discriminate].
    intros E%negb_true_iff%strict_ne_false. now exists verified.
  - intros (verified & -> & E). apply negb_true_iff. now apply strict_ne_false.
Qed.

(** [validateNonce] never throws, and its result is the conjunction of its
    four checks. *)
Lemma validateNonce_eq (nonce : string) (now : Z) :
  validateNonce nonce now =
  Return ((length (split "|" nonce) =? 3)%nat
          && signature_check JWT_SECRET nonce now
          && negb (JS.gt (nonce_age nonce now) (Int Auth.NONCE_EXPIRY_MS))
          && negb (JS.lt (nonce_age nonce now) (Int (-60000)))).
Proof.
  unfold Auth.validateNonce, signature_check, nonce_age,
    nonce_timestamp, nonce_random, nonce_signature.
  destruct (length (split "|" nonce) =? 3)%nat; [|reflexivity].
  cbn [negb andb try_catch JS.bind].
  destruct (jwtVerify _ _ _) as [verified|e]; [|reflexivity].
  cbn [try_catch JS.bind].
  destruct (Auth.strict_ne _ _); [reflexivity|].
  cbn [try_catch JS.bind negb andb].
  destruct (JS.gt _ _); [reflexivity|].
  destruct (JS.lt _ _); reflexivity.
Qed.

Lemma string_app_assoc (a b c : string) : (a +:+ b) +:+ c = a +:+ (b +:+ c).
Proof.
  induction a as [|x a IH]; [reflexivity|].
  change (String x ((a +:+ b) +:+ c) = String x (a +:+ (b +:+ c))).
  now f_equal.
Qed.

Lemma sign_compact_no_bar (claims : Claims) (key : Uint8Array) :
  count_char "|" (sign_compact claims key) = 0%nat.
Proof.
  apply (string_forallb_count is_compact_char); [reflexivity|].
  apply sign_compact_alphabet.
Qed.

Lemma jwtVerify_nonce_signature (payload : string) (now : Z) :
  jwtVerify (sign_compact {[ "payload" := JStr payload ]} secret) secret now =
  Return {[ "payload" := JStr payload ]}.
Proof.
  unfold jwtVerify. rewrite verify_sign_compact. cbn [JS.bind].
  unfold jwt_claims_set.
  now rewrite !lookup_singleton_ne by discriminate.
Qed.

Lemma createNonce_eq (now : Z) (randomBytes : Uint8Array) :
  createNonce now randomBytes = Return (created_nonce JWT_SECRET now randomBytes).
Proof. reflexivity. Qed.

Lemma created_nonce_split (now : Z) (randomBytes : Uint8Array) :
  split "|" (created_nonce JWT_SECRET now randomBytes) =
  [ Number_toString now; hex_of_bytes randomBytes;
    sign_compact
      {[ "payload" := JStr (Number_toString now +:+ "|" +:+ hex_of_bytes randomBytes) ]}
      secret ].
Proof.
  unfold created_nonce. cbv zeta. rewrite !string_app_assoc.
  change ("|" +:+ ?x) with (String "|" x).
  apply split3.
  - now apply count_char_Number_toString.
  - now apply hex_of_bytes_count.
  - apply sign_compact_no_bar.
Qed.

(** A created nonce passes the format and signature checks at any time;
    only its age decides. *)
Lemma validateNonce_created (T now : Z) (randomBytes : Uint8Array) :
  validateNonce (created_nonce JWT_SECRET T randomBytes) now =
  Return (negb (Auth.NONCE_EXPIRY_MS <? now - T) && negb (now - T <? -60000)).
Proof.
  rewrite validateNonce_eq.
  unfold signature_check, nonce_age, nonce_timestamp, nonce_random, nonce_signature.
  rewrite created_nonce_split. cbn [length nth Nat.eqb andb].
  rewrite jwtVerify_nonce_signature, lookup_singleton_eq.
  cbn [Auth.strict_ne]. rewrite String.eqb_refl. cbn [negb andb].
  rewrite parseInt_Number_toString. reflexivity.
Qed.

(** C2.  [validateNonce] returns false exactly when the string does not
    split on the bar into three parts, or the signature part does not verify
    under the server secret as a token over [timestamp|random], or the age
    [now - timestamp] exceeds five minutes, or the age is below minus sixty
    seconds; it returns true otherwise.  A nonce created at [T] is refused
    at [T + 5min + 1ms] and accepted at [T + 4min59s]. *)
Theorem validateNonce_characterisation (nonce : string) (now : Z) :
  (validateNonce nonce now = Return false <->
     length (split "|" nonce) <> 3%nat \/
     ~ nonce_mac_authentic secret nonce now \/
     JS.gt (nonce_age nonce now) (Int (5 * 60 * 1000)) = true \/
     JS.lt (nonce_age nonce now) (Int (-60000)) = true) /\
  (validateNonce nonce now = Return true <->
     length (split "|" nonce) = 3%nat /\
     nonce_mac_authentic secret nonce now /\
     JS.gt (nonce_age nonce now) (Int (5 * 60 * 1000)) = false /\
     JS.lt (nonce_age nonce now) (Int (-60000)) = false) /\
  (forall (T : Z) (randomBytes : Uint8Array),
     exists created,
       createNonce T randomBytes = Return created /\
       validateNonce created (T + 5 * 60 * 1000 + 1) = Return false /\
       validateNonce created (T + (4 * 60 + 59) * 1000) = Return true).
Proof.
  split; [|split].
  - rewrite validateNonce_eq.
    pose proof (signature_check_spec nonce now) as Hs.
    change (Int Auth.NONCE_EXPIRY_MS) with (Int (5 * 60 * 1000)).
    destruct (Nat.eqb_spec (length (split "|" nonce)) 3) as [Hl|Hl];
      destruct (signature_check JWT_SECRET nonce now);
      destruct (JS.gt _ _); destruct (JS.lt _ _); cbn [andb negb];
      split; intros Hr; try reflexivity; try discriminate; try tauto;
      try (right; left; intros Ha; apply Hs in Ha; discriminate);
      try (destruct Hr as [Hr|[Hr|[Hr|Hr]]];
           [ contradiction | exfalso; apply Hr, Hs; reflexivity
           | discriminate | discriminate ]).
  - rewrite validateNonce_eq.
    pose proof (signature_check_spec nonce now) as Hs.
    change (Int Auth.NONCE_EXPIRY_MS) with (Int (5 * 60 * 1000)).
    destruct (Nat.eqb_spec (length (split "|" nonce)) 3) as [Hl|Hl];
      destruct (signature_check JWT_SECRET nonce now);
      destruct (JS.gt _ _); destruct (JS.lt _ _); cbn [andb negb];
      split; intros Hr; try discriminate;
      try (destruct Hr as (Hr1 & Hr2 & Hr3 & Hr4);
           first [ contradiction | discriminate | apply Hs in Hr2; discriminate ]).
    + repeat split; try assumption. now apply Hs.
    + reflexivity.
  - intros T randomBytes. exists (created_nonce JWT_SECRET T randomBytes).
    rewrite createNonce_eq, !validateNonce_created.
    replace (T + 5 * 60 * 1000 + 1 - T) with 300001 by lia.
    replace (T + (4 * 60 + 59) * 1000 - T) with 299000 by lia.
    repeat split; reflexivity.
Qed.

(** C5.  Round trip of the nonce codec: what [createNonce] returns at a clock
    reading validates at the same reading; it splits on the bar into the
    three fields, none of which contains a bar. *)
Theorem createNonce_validateNonce (now : Z) (randomBytes : Uint8Array) :
  exists nonce timestamp random signature,
    createNonce now randomBytes = Return nonce /\
    validateNonce nonce now = Return true /\
    split "|" nonce = [timestamp; random; signature] /\
    timestamp = Number_toString now /\
    random = hex_of_bytes randomBytes /\
    signature = sign_compact {[ "payload" := JStr (timestamp +:+ "|" +:+ random) ]} secret /\
    count_char "|" timestamp = 0%nat /\
    count_char "|" random = 0%nat /\
    count_char "|" signature = 0%nat.
Proof.
  exists (created_nonce JWT_SECRET now randomBytes).
  eexists _, _, _.
  split; [apply createNonce_eq|].
  split; [rewrite validateNonce_created; replace (now - now) with 0 by lia; reflexivity|].
  split; [apply created_nonce_split|].
  repeat split.
  - now apply count_char_Number_toString.
  - now apply hex_of_bytes_count.
  - apply sign_compact_no_bar.
Qed.

Lemma jwt_claims_set_inv (payload verified : Claims) (now : Z) :
  jwt_claims_set payload now = Return verified -> verified = payload.
Proof.
  unfold jwt_claims_set. intros E.
  repeat match type of E with
    | context [match ?x with _ => _ end] =>
        destruct x; cbn [JS.bind] in E; try discriminate
    end;
  congruence.
Qed.

(** The payload that [jwtVerify] returns for a token does not depend on the
    time of the call; only whether it returns does. *)
Lemma jwtVerify_payload_stable (jwt : string) (key : Uint8Array) (now now' : Z)
  (verified verified' : Claims) :
  jwtVerify jwt key now = Return verified ->
  jwtVerify jwt key now' = Return verified' ->
  verified' = verified.
Proof.
  unfold jwtVerify. destruct (verify_compact jwt key) as [payload|e]; [|discriminate].
  cbn [JS.bind]. intros E1%jwt_claims_set_inv E2%jwt_claims_set_inv. congruence.
Qed.

Lemma validateNonce_true_inv (nonce : string) (now : Z) :
  validateNonce nonce now = Return true ->
  split "|" nonce = [nonce_timestamp nonce; nonce_random nonce; nonce_signature nonce] /\
  nonce_mac_authentic secret nonce now.
Proof.
  rewrite validateNonce_eq. intros [= E].
  apply andb_true_iff in E as [E _]. apply andb_true_iff in E as [E _].
  apply andb_true_iff in E as [El Es].
  split; [|now apply signature_check_spec].
  apply Nat.eqb_eq in El. unfold nonce_timestamp, nonce_random, nonce_signature.
  destruct (split "|" nonce) as [|a [|b [|c [|d l]]]]; try discriminate. reflexivity.
Qed.

(** A valid nonce whose timestamp and random segments are replaced, with the
    signature segment kept, is refused at any time. *)
Lemma validateNonce_replaced (nonce timestamp' random' : string) (now now' : Z) :
  validateNonce nonce now = Return true ->
  (timestamp', random') <> (nonce_timestamp nonce, nonce_random nonce) ->
  validateNonce
    (timestamp' +:+ String "|" (random' +:+ String "|" (nonce_signature nonce))) now'
  = Return false.
Proof.
  intros (Hsplit & verified & Hv & Hp)%validateNonce_true_inv Hne.
  apply split3_inv in Hsplit as (_ & Ht & Hr & Hs).
  remember (nonce_timestamp nonce) as ts eqn:Ets.
  remember (nonce_random nonce) as rnd eqn:Ernd.
  remember (nonce_signature nonce) as sig eqn:Esig.
  clear Ets Ernd Esig.
  rewrite validateNonce_eq.
  destruct (Nat.eqb_spec
              (length (split "|" (timestamp' +:+ String "|" (random' +:+ String "|" sig))))
              3) as [Hl|Hl]; [|reflexivity].
  rewrite length_split, !count_char_app in Hl. cbn [count_char] in Hl.
  rewrite count_char_app in Hl. cbn [count_char] in Hl.
  rewrite Ascii.eqb_refl in Hl.
  assert (Ht' : count_char "|" timestamp' = 0%nat) by lia.
  assert (Hr' : count_char "|" random' = 0%nat) by lia.
  assert (Hsplit' := split3 "|" _ _ _ Ht' Hr' Hs).
  unfold signature_check, nonce_timestamp, nonce_random, nonce_signature.
  rewrite Hsplit'. cbn [nth].
  destruct (jwtVerify sig secret now') as [verified'|e] eqn:Hv'; [|reflexivity].
  rewrite (jwtVerify_payload_stable _ _ _ _ _ _ Hv Hv'), Hp.
  cbn [Auth.strict_ne andb].
  destruct (String.eqb_spec (ts +:+ "|" +:+ rnd) (timestamp' +:+ "|" +:+ random'))
    as [E|E]; [|reflexivity].
  exfalso. apply Hne.
  assert (E' : split "|" (ts +:+ String "|" rnd)
               = split "|" (timestamp' +:+ String "|" random')) by (f_equal; exact E).
  rewrite !split_app, !split_absent in E' by assumption.
  congruence.
Qed.

(** C6.  Tamper sensitivity: in a nonce that validates, replacing any one
    character of the timestamp segment or of the random segment by another
    character, the signature segment unchanged, gives a string that
    [validateNonce] refuses (at any time). *)
Theorem validateNonce_tamper (nonce : string) (now now' : Z) (i : nat) (c c0 : ascii) :
  validateNonce nonce now = Return true ->
  String.get i nonce = Some c0 ->
  c <> c0 ->
  (i < String.length (nonce_timestamp nonce) \/
   String.length (nonce_timestamp nonce) < i
     <= String.length (nonce_timestamp nonce) + String.length (nonce_random nonce))%nat ->
  validateNonce (set_char i c nonce) now' = Return false.
Proof.
  intros Hvalid Hget Hc Hi.
  destruct (validateNonce_true_inv _ _ Hvalid) as [Hsplit _].
  apply split3_inv in Hsplit as (Hnonce & _).
  pose proof (validateNonce_replaced nonce) as Hrep.
  remember (nonce_timestamp nonce) as ts eqn:Ets.
  remember (nonce_random nonce) as rnd eqn:Ernd.
  remember (nonce_signature nonce) as sig eqn:Esig.
  destruct Hi as [Hi|[Hlo Hhi]].
  - rewrite Hnonce in Hget. rewrite get_app_l in Hget by exact Hi.
    rewrite Hnonce at 1. rewrite set_char_app_l by exact Hi.
    apply (Hrep _ _ now now' Hvalid).
    intros E. apply (set_char_changes ts i c c0 Hget Hc). congruence.
  - assert (Ei : i = (String.length ts + S (i - String.length ts - 1))%nat) by lia.
    remember (i - String.length ts - 1)%nat as j eqn:Ej.
    assert (Hj : (j < String.length rnd)%nat) by lia.
    rewrite Hnonce in Hget. rewrite Ei, get_app_r in Hget.
    cbn [String.get] in Hget. rewrite get_app_l in Hget by exact Hj.
    rewrite Hnonce at 1. rewrite Ei, set_char_app_r. cbn [set_char].
    rewrite set_char_app_l by exact Hj.
    apply (Hrep _ _ now now' Hvalid).
    intros E. apply (set_char_changes rnd j c c0 Hget Hc). congruence.
Qed.

End NonceFacts.

(** ** [auth.ts]: the token issuer and verifier *)

Section TokenFacts.
Context {J : JoseLib}.
Variable JWT_SECRET : string.

Local Abbreviation secret := (Auth.secret JWT_SECRET).
Local Abbreviation createToken := (Auth.createToken JWT_SECRET).
Local Abbreviation verifyToken := (Auth.verifyToken JWT_SECRET).

Lemma createToken_eq (address : string) (issued : Z) :
  createToken address issued = Return (sign_compact (token_claims address issued) secret).
Proof. reflexivity. Qed.

Lemma token_claims_lookup (address : string) (issued : Z) :
  token_claims address issued !! "address" = Some (JStr address) /\
  token_claims address issued !! "exp" = Some (JNum (epoch issued + 24 * 60 * 60)) /\
  token_claims address issued !! "iat" = None /\
  token_claims address issued !! "nbf" = None.
Proof.
  unfold token_claims. split; [|split; [|split]].
  - now rewrite lookup_insert_ne, lookup_singleton_eq by discriminate.
  - now rewrite lookup_insert_eq.
  - now rewrite lookup_insert_ne, lookup_singleton_ne by discriminate.
  - now rewrite lookup_insert_ne, lookup_singleton_ne by discriminate.
Qed.

Lemma jwt_claims_set_token (address : string) (issued now : Z) :
  epoch now < epoch issued + 24 * 60 * 60 ->
  jwt_claims_set (token_claims address issued) now = Return (token_claims address issued).
Proof.
  intros Hnow. unfold jwt_claims_set.
  destruct (token_claims_lookup address issued) as (_ & -> & -> & ->).
  destruct (Z.leb_spec (epoch issued + 24 * 60 * 60) (epoch now)); [lia | reflexivity].
Qed.

(** [verifyToken] on a token that is present: the payload when [jwtVerify]
    returns, [null] when it throws. *)
Lemma verifyToken_present (token : string) (now : Z) :
  token <> EmptyString ->
  verifyToken (Some token) now =
  match jwtVerify token secret now with
  | Return payload => Return (Some payload)
  | Throw _ => Return None
  end.
Proof.
  intros Hne. destruct token as [|c r]; [congruence|].
  unfold Auth.verifyToken. destruct (jwtVerify _ _ _); reflexivity.
Qed.

(** A claims set whose expiry has passed is refused by [jwtVerify]. *)
Lemma jwt_claims_set_expired (payload : Claims) (now exp : Z) :
  payload !! "exp" = Some (JNum exp) -> exp <= epoch now ->
  exists e, jwt_claims_set payload now = Throw e.
Proof.
  intros Hexp Hle. unfold jwt_claims_set. rewrite Hexp.
  destruct (Z.leb_spec exp (epoch now)); [|lia].
  destruct (payload !! "iat") as [[]|]; try (eexists; reflexivity);
    destruct (payload !! "nbf") as [[]|]; try (eexists; reflexivity);
    destruct (_ <? _); eexists; reflexivity.
Qed.

(** C7.  Token round trip: the token that [createToken] returns for an
    address verifies, as long as fewer than twenty-four hours of whole
    seconds have passed (in particular at the instant of issuance), to a
    payload whose [address] is the given address. *)
Theorem verifyToken_createToken (address : string) (issued : Z) :
  (exists token payload,
     createToken address issued = Return token /\
     verifyToken (Some token) issued = Return (Some payload) /\
     payload !! "address" = Some (JStr address)) /\
  (forall now, epoch now < epoch issued + 24 * 60 * 60 ->
     exists token payload,
       createToken address issued = Return token /\
       verifyToken (Some token) now = Return (Some payload) /\
       payload !! "address" = Some (JStr address)).
Proof.
  assert (Hgen : forall now, epoch now < epoch issued + 24 * 60 * 60 ->
     exists token payload,
       createToken address issued = Return token /\
       verifyToken (Some token) now = Return (Some payload) /\
       payload !! "address" = Some (JStr address)).
  { intros now Hnow.
    exists (sign_compact (token_claims address issued) secret), (token_claims address issued).
    split; [apply createToken_eq|]. split; [|apply token_claims_lookup].
    rewrite verifyToken_present by apply sign_compact_nonempty.
    unfold jwtVerify. rewrite verify_sign_compact. cbn [JS.bind].
    now rewrite jwt_claims_set_token. }
  split; [apply Hgen; lia | exact Hgen].
Qed.

(** C8.  [verifyToken] never throws.  It returns [null] when the token is
    absent (or empty), when the token is malformed, when its MAC does not
    verify under the server secret, when its expiry has passed, and in
    general whenever [jwtVerify] throws, whatever the error: the caller sees
    the same [null] in all these cases. *)
Theorem verifyToken_null (now : Z) :
  (forall token, exists result, verifyToken token now = Return result) /\
  verifyToken None now = Return None /\
  verifyToken (Some EmptyString) now = Return None /\
  (forall token e,
     jwtVerify token secret now = Throw e -> verifyToken (Some token) now = Return None) /\
  (forall token,
     verify_compact token secret = Throw (JoseErr JWSInvalid) ->
     verifyToken (Some token) now = Return None) /\
  (forall token,
     verify_compact token secret = Throw (JoseErr JWSSignatureVerificationFailed) ->
     verifyToken (Some token) now = Return None) /\
  (forall token payload exp,
     verify_compact token secret = Return payload ->
     payload !! "exp" = Some (JNum exp) -> exp <= epoch now ->
     verifyToken (Some token) now = Return None).
Proof.
  assert (Hthrow : forall token e,
     jwtVerify token secret now = Throw e -> verifyToken (Some token) now = Return None).
  { intros token e He. destruct token as [|c r]; [reflexivity|].
    rewrite verifyToken_present by discriminate. now rewrite He. }
  repeat split; try reflexivity.
  - intros [[|c r]|]; try (eexists; reflexivity).
    rewrite verifyToken_present by discriminate.
    destruct (jwtVerify _ _ _); eexists; reflexivity.
  - exact Hthrow.
  - intros token He. apply (Hthrow token (JoseErr JWSInvalid)).
    unfold jwtVerify. now rewrite He.
  - intros token He. apply (Hthrow token (JoseErr JWSSignatureVerificationFailed)).
    unfold jwtVerify. now rewrite He.
  - intros token payload exp Hv Hexp Hle.
    destruct (jwt_claims_set_expired payload now exp Hexp Hle) as [e He].
    apply (Hthrow token e). unfold jwtVerify. now rewrite Hv.
Qed.

(** C9, as the code has it.  Every token that [createToken] returns is the
    HS256 serialisation, under the server secret, of a claims set with
    exactly two claims: [address], the given address, and [exp], the whole
    seconds of the issuance time plus twenty-four hours.  There is no claim
    for the issuance time itself ([iat] is absent). *)
Theorem createToken_claims (address : string) (issued : Z) :
  exists token payload,
    createToken address issued = Return token /\
    token = sign_compact payload secret /\
    verify_compact token secret = Return payload /\
    payload !! "address" = Some (JStr address) /\
    payload !! "exp" = Some (JNum (issued / 1000 + 86400)) /\
    payload !! "iat" = None /\
    (forall claim, is_Some (payload !! claim) <-> claim = "address" \/ claim = "exp").
Proof.
  exists (sign_compact (token_claims address issued) secret), (token_claims address issued).
  destruct (token_claims_lookup address issued) as (Ha & He & Hi & _).
  split; [apply createToken_eq|]. split; [reflexivity|].
  split; [apply verify_sign_compact|].
  split; [exact Ha|]. split; [exact He|]. split; [exact Hi|].
  intros claim. unfold token_claims. split.
  - intros [v Hv].
    destruct (decide (claim = "exp")) as [->|Hexp]; [now right|].
    rewrite lookup_insert_ne in Hv by congruence.
    destruct (decide (claim = "address")) as [->|Haddr]; [now left|].
    rewrite lookup_singleton_ne in Hv by congruence. discriminate.
  - intros [-> | ->]; eexists; [exact Ha | exact He].
Qed.

End TokenFacts.

(** ** [check/route.ts] *)

Section CheckFacts.
Context {J : JoseLib}.
Variable JWT_SECRET : string.

(** C10.  Some token that verifies under the server secret and has not
    expired carries no [address] claim, and is accepted all the same: the
    signature segment of any nonce that [createNonce] returns is one.
    [verifyToken] gives its payload, and [GET /check] with this token as the
    [authToken] cookie answers 200 with [authenticated: true] and an
    undefined address. *)
Theorem check_accepts_token_without_address (T : Z) (randomBytes : Uint8Array) (now : Z) :
  exists nonce token payload,
    Auth.createNonce JWT_SECRET T randomBytes = Return nonce /\
    token = nonce_signature nonce /\
    jwtVerify token (Auth.secret JWT_SECRET) now = Return payload /\
    payload !! "address" = None /\
    Auth.verifyToken JWT_SECRET (Some token) now = Return (Some payload) /\
    Check.GET JWT_SECRET (Some token) now =
      Return {| status := 200; body := CheckBody true None |}.
Proof.
  exists (created_nonce JWT_SECRET T randomBytes).
  eexists _, _.
  split; [apply createNonce_eq|]. split; [reflexivity|].
  unfold nonce_signature. rewrite created_nonce_split. cbn [nth].
  assert (Hv := jwtVerify_nonce_signature JWT_SECRET
                  (Number_toString T +:+ "|" +:+ hex_of_bytes randomBytes) now).
  assert (Htok := verifyToken_present JWT_SECRET _ now
                    (sign_compact_nonempty
                       {[ "payload" := JStr (Number_toString T +:+ "|"
                                             +:+ hex_of_bytes randomBytes) ]}
                       (Auth.secret JWT_SECRET))).
  rewrite Hv in Htok.
  split; [exact Hv|]. split; [now rewrite lookup_singleton_ne by discriminate|].
  split; [exact Htok|].
  unfold Check.GET.
  destruct (sign_compact _ _) as [|c r] eqn:E; [now apply sign_compact_nonempty in E|].
  cbn [truthy_string negb]. rewrite Htok. cbn [JS.bind try_catch].
  now rewrite lookup_singleton_ne by discriminate.
Qed.

End CheckFacts.

(** ** [auth.ts]: the signature verifier *)

Lemma string_pair_ind (P : string -> Prop) :
  P EmptyString ->
  (forall a, P (String a EmptyString)) ->
  (forall a b r, P r -> P (String a (String b r))) ->
  forall s, P s.
Proof.
  intros H0 H1 H2.
  assert (H : forall s, P s /\ forall a, P (String a s)).
  { induction s as [|b r [IHr IHc]]; split; auto. }
  intros s. apply H.
Qed.

(** [Buffer.from(_, 'hex')] decodes a malformed string to fewer bytes than
    the string has digit pairs. *)
Lemma Buffer_from_hex_malformed (h : string) :
  is_hex_string h = false -> (2 * length (Buffer_from_hex h) < String.length h)%nat.
Proof.
  induction h as [|a|a b r IH] using string_pair_ind; cbn [is_hex_string].
  - discriminate.
  - intros _. cbn. lia.
  - cbn [Buffer_from_hex String.length].
    destruct (unhex a), (unhex b); cbn [length]; intros Hr; try lia.
    specialize (IH Hr). lia.
Qed.

Section VerifierFacts.
Variable crypto_sign_open_ok : Uint8Array -> Uint8Array -> Uint8Array -> bool.

Local Abbreviation verifyWalletSignature := (Auth.verifyWalletSignature crypto_sign_open_ok).

(** The result of [verifyWalletSignature] in closed form: it never throws. *)
Lemma verifyWalletSignature_eq (message : string) (envelope : Auth.WalletSignature)
  (address : string) :
  verifyWalletSignature message envelope address =
  Return
    match Auth.signature envelope, Auth.publicKey envelope with
    | Some sigHex, Some keyHex =>
        (length (Buffer_from_hex (slice2 sigHex)) =? 64)%nat
        && (length (Buffer_from_hex (slice2 keyHex)) =? 32)%nat
        && crypto_sign_open_ok (TextEncoder_encode message)
             (Buffer_from_hex (slice2 sigHex)) (Buffer_from_hex (slice2 keyHex))
    | _, _ => false
    end.
Proof.
  unfold Auth.verifyWalletSignature, Auth.slice_2, Nacl.sign_detached_verify.
  destruct (Auth.signature envelope) as [sigHex|]; [|reflexivity].
  destruct (Auth.publicKey envelope) as [keyHex|]; [|reflexivity].
  cbn [JS.bind].
  destruct (length (Buffer_from_hex (slice2 sigHex)) =? 64)%nat; [|reflexivity].
  destruct (length (Buffer_from_hex (slice2 keyHex)) =? 32)%nat; [|reflexivity].
  cbn [negb JS.bind andb].
  destruct (crypto_sign_open_ok _ _ _); reflexivity.
Qed.

(** C3, as the code has it.  [verifyWalletSignature] never raises: whatever
    the envelope, it returns a boolean.  A field that is not hexadecimal is
    decoded up to its first bad digit pair; when the signature does not
    decode to 64 bytes or the public key not to 32 bytes, the size error of
    the library is caught inside the verifier and the result is false.  So a
    signature field with a bad digit among its first 128 digits, or a public
    key field with a bad digit among its first 64, gives false.  The caller
    has nothing to catch. *)
Theorem verifyWalletSignature_never_throws
  (message : string) (envelope : Auth.WalletSignature) (address : string) :
  (exists result, verifyWalletSignature message envelope address = Return result) /\
  (forall sigHex,
     Auth.signature envelope = Some sigHex ->
     length (Buffer_from_hex (slice2 sigHex)) <> 64%nat ->
     verifyWalletSignature message envelope address = Return false) /\
  (forall keyHex,
     Auth.publicKey envelope = Some keyHex ->
     length (Buffer_from_hex (slice2 keyHex)) <> 32%nat ->
     verifyWalletSignature message envelope address = Return false) /\
  (forall sigHex,
     Auth.signature envelope = Some sigHex ->
     is_hex_string (slice2 sigHex) = false ->
     (String.length (slice2 sigHex) <= 128)%nat ->
     verifyWalletSignature message envelope address = Return false) /\
  (forall keyHex,
     Auth.publicKey envelope = Some keyHex ->
     is_hex_string (slice2 keyHex) = false ->
     (String.length (slice2 keyHex) <= 64)%nat ->
     verifyWalletSignature message envelope address = Return false).
Proof.
  assert (Hsig : forall sigHex,
     Auth.signature envelope = Some sigHex ->
     length (Buffer_from_hex (slice2 sigHex)) <> 64%nat ->
     verifyWalletSignature message envelope address = Return false).
  { intros sigHex Hs Hl. rewrite verifyWalletSignature_eq, Hs.
    apply Nat.eqb_neq in Hl. rewrite Hl. now destruct (Auth.publicKey envelope). }
  assert (Hkey : forall keyHex,
     Auth.publicKey envelope = Some keyHex ->
     length (Buffer_from_hex (slice2 keyHex)) <> 32%nat ->
     verifyWalletSignature message envelope address = Return false).
  { intros keyHex Hk Hl. rewrite verifyWalletSignature_eq, Hk.
    apply Nat.eqb_neq in Hl. rewrite Hl.
    destruct (Auth.signature envelope); [|reflexivity].
    now rewrite andb_false_r. }
  split; [rewrite verifyWalletSignature_eq; eexists; reflexivity|].
  split; [exact Hsig|]. split; [exact Hkey|]. split.
  - intros sigHex Hs Hbad Hlen. apply (Hsig sigHex Hs).
    apply Buffer_from_hex_malformed in Hbad. lia.
  - intros keyHex Hk Hbad Hlen. apply (Hkey keyHex Hk).
    apply Buffer_from_hex_malformed in Hbad. lia.
Qed.

(** C4.  The result of [verifyWalletSignature] does not depend on the
    claimed address: for one message and one envelope, any two addresses
    give the same result. *)
Theorem verifyWalletSignature_ignores_address
  (message : string) (envelope : Auth.WalletSignature) (a1 a2 : string) :
  verifyWalletSignature message envelope a1 = verifyWalletSignature message envelope a2.
Proof. now rewrite !verifyWalletSignature_eq. Qed.

End VerifierFacts.

(** ** [create-jwt/route.ts] *)

Section CreateJwtFacts.
Context {J : JoseLib}.
Variable crypto_sign_open_ok : Uint8Array -> Uint8Array -> Uint8Array -> bool.
Variable JWT_SECRET : string.

Local Abbreviation POST := (CreateJwt.POST crypto_sign_open_ok JWT_SECRET).
Local Abbreviation validateNonce := (Auth.validateNonce JWT_SECRET).
Local Abbreviation verifyWalletSignature := (Auth.verifyWalletSignature crypto_sign_open_ok).
Local Abbreviation createToken := (Auth.createToken JWT_SECRET).

Lemma truthy_string_nonempty (s : string) :
  s <> EmptyString -> truthy_string (Some s) = true.
Proof. destruct s; [congruence | reflexivity]. Qed.

(** The response to a body in which every required field is present. *)
Lemma POST_complete (address sigHex keyHex nonce : string) (now : Z) :
  address <> EmptyString -> sigHex <> EmptyString -> keyHex <> EmptyString ->
  nonce <> EmptyString ->
  let envelope := {| Auth.signature := Some sigHex; Auth.publicKey := Some keyHex |} in
  POST (Return (CreateJwt.JsonObject
          {| CreateJwt.address := Some address;
             CreateJwt.signature := Some envelope;
             CreateJwt.nonce := Some nonce |})) now =
  match validateNonce nonce now, verifyWalletSignature CreateJwt.AUTH_MESSAGE envelope address with
  | Return true, Return true =>
      Return {| status := 200;
                body := TokenBody (sign_compact (token_claims address now)
                                     (Auth.secret JWT_SECRET)) address |}
  | Return true, _ =>
      Return {| status := 401;
                body := ErrorBody "Invalid signature. Signature verification failed." |}
  | _, _ =>
      Return {| status := 401;
                body := ErrorBody
                  "Invalid or expired nonce. Please request a new nonce and try again." |}
  end.
Proof.
  intros Ha Hs Hk Hn envelope. subst envelope.
  unfold CreateJwt.POST, CreateJwt.destructure.
  cbn [JS.bind CreateJwt.address CreateJwt.signature CreateJwt.nonce
       CreateJwt.truthy_object default from_option id Auth.signature Auth.publicKey].
  rewrite !truthy_string_nonempty by assumption. cbn [negb orb].
  rewrite (validateNonce_eq JWT_SECRET nonce now).
  destruct (_ && _ && _ && _); [|reflexivity].
  cbn [JS.bind negb].
  rewrite (verifyWalletSignature_eq crypto_sign_open_ok).
  cbn [Auth.signature Auth.publicKey].
  destruct (_ && _ && crypto_sign_open_ok _ _ _); reflexivity.
Qed.

(** C1.  For a POST to [/create-jwt] whose body holds a non-empty address,
    a signature object with non-empty [signature] and [publicKey], and a
    non-empty nonce: the response is 200 with a token exactly when
    [validateNonce] and [verifyWalletSignature] (on the fixed message) both
    return true; when either does not, the response is 401 with an error
    body and no token.  For a body in which the address, the signature or
    the nonce is missing (absent or empty), the response is 400 with an
    error body and no token. *)
Theorem POST_create_jwt (now : Z) :
  (forall address sigHex keyHex nonce,
     address <> EmptyString -> sigHex <> EmptyString -> keyHex <> EmptyString ->
     nonce <> EmptyString ->
     let envelope := {| Auth.signature := Some sigHex; Auth.publicKey := Some keyHex |} in
     let response :=
       POST (Return (CreateJwt.JsonObject
               {| CreateJwt.address := Some address;
                  CreateJwt.signature := Some envelope;
                  CreateJwt.nonce := Some nonce |})) now in
     let checks_pass :=
       validateNonce nonce now = Return true /\
       verifyWalletSignature CreateJwt.AUTH_MESSAGE envelope address = Return true in
     (checks_pass <->
        exists token,
          createToken address now = Return token /\
          response = Return {| status := 200; body := TokenBody token address |}) /\
     (~ checks_pass ->
        exists error, response = Return {| status := 401; body := ErrorBody error |})) /\
  (forall b,
     truthy_string (CreateJwt.address b) = false \/
     CreateJwt.signature b = None \/
     truthy_string (CreateJwt.nonce b) = false ->
     exists error,
       POST (Return (CreateJwt.JsonObject b)) now =
       Return {| status := 400; body := ErrorBody error |}).
Proof.
  split.
  - intros address sigHex keyHex nonce Ha Hs Hk Hn envelope response checks_pass.
    subst response checks_pass.
    subst envelope.
    rewrite (POST_complete address sigHex keyHex nonce now Ha Hs Hk Hn).
    rewrite (validateNonce_eq JWT_SECRET nonce now).
    rewrite (verifyWalletSignature_eq crypto_sign_open_ok).
    cbn [Auth.signature Auth.publicKey].
    destruct (_ && _ && _ && _); destruct (_ && _ && crypto_sign_open_ok _ _ _);
      (split; [split|]).
    all: try (intros [? ?]; discriminate).
    all: try (intros (token & _ & ?); discriminate).
    all: try (intros _; eexists; split; [apply createToken_eq | reflexivity]).
    all: try (intros _; split; reflexivity).
    all: try (intros _; eexists; reflexivity).
    intros Hnot. exfalso. apply Hnot. split; reflexivity.
  - intros b Hmissing.
    unfold CreateJwt.POST, CreateJwt.destructure. cbn [JS.bind].
    destruct (truthy_string (CreateJwt.address b)) eqn:Ea;
      destruct (CreateJwt.signature b) as [envelope|] eqn:Es;
      destruct (truthy_string (CreateJwt.nonce b)) eqn:En;
      cbn [negb orb CreateJwt.truthy_object try_catch];
      try (eexists; reflexivity).
    destruct Hmissing as [H|[H|H]]; discriminate.
Qed.

End CreateJwtFacts.

(** ** The handlers on concrete requests

    The reference implementation of the serialisation, a fixed secret, a
    fixed clock reading and fixed random bytes. *)

Definition sample_secret : string := "test-secret".

Definition sample_now : Z := 1700000000000.

Definition sample_random : Uint8Array :=
  [x00; x01; x02; x03; x04; x05; x06; x07; x08; x09; x0a; x0b; x0c; x0d; x0e; xff].

Definition sample_nonce : string :=
  "1700000000000|000102030405060708090a0b0c0d0eff|HS256.7061796c6f6164-S313730303030303030303030307c3030303130323033303430353036303730383039306130623063306430656666_.48c2".

Definition sample_token : string :=
  "HS256.657870-I31373030303836343030_61646472657373-S307841424344_.b1fd".

Definition sample_publicKey : string :=
  "0x1111111111111111111111111111111111111111111111111111111111111111".

Definition sample_signature : string :=
  "0x11111111111111111111111111111111111111111111111111111111111111112222222222222222222222222222222222222222222222222222222222222222".

Definition sample_envelope : Auth.WalletSignature :=
  {| Auth.signature := Some sample_signature; Auth.publicKey := Some sample_publicKey |}.

Example sample_nonce_created :
  Auth.createNonce (J := reference_jose) sample_secret sample_now sample_random
  = Return sample_nonce.
Proof. vm_compute. reflexivity. Qed.

Example sample_token_created :
  Auth.createToken (J := reference_jose) sample_secret "0xABCD" sample_now
  = Return sample_token.
Proof. vm_compute. reflexivity. Qed.

(** A body that is the JSON text [null] is answered with 500: the
    destructuring throws and the handler's own [catch] takes it. *)
Example POST_null_body :
  CreateJwt.POST (J := reference_jose) Reference.ref_sign_open sample_secret
    (Return CreateJwt.JsonNull) sample_now
  = Return {| status := 500; body := ErrorBody "Authentication failed. Please try again." |}.
Proof. reflexivity. Qed.

(** An empty address counts as missing. *)
Example POST_empty_address :
  CreateJwt.POST (J := reference_jose) Reference.ref_sign_open sample_secret
    (Return (CreateJwt.JsonObject
       {| CreateJwt.address := Some EmptyString;
          CreateJwt.signature := Some sample_envelope;
          CreateJwt.nonce := Some sample_nonce |})) sample_now
  = Return {| status := 400;
              body := ErrorBody
                "Missing required fields: address, signature, and nonce are required" |}.
Proof. reflexivity. Qed.

(** A signature field with trailing garbage after 64 well-formed bytes is
    decoded to these 64 bytes and can verify. *)
Example verifyWalletSignature_trailing_garbage :
  Auth.verifyWalletSignature Reference.ref_sign_open CreateJwt.AUTH_MESSAGE
    {| Auth.signature := Some (sample_signature +:+ "zz");
       Auth.publicKey := Some sample_publicKey |} "0xABCD"
  = Return true.
Proof. vm_compute. reflexivity. Qed.

Lemma POST_create_jwt_witness :
  CreateJwt.POST (J := reference_jose) Reference.ref_sign_open sample_secret
    (Return (CreateJwt.JsonObject
       {| CreateJwt.address := Some "0xABCD";
          CreateJwt.signature := Some sample_envelope;
          CreateJwt.nonce := Some sample_nonce |})) sample_now
  = Return {| status := 200; body := TokenBody sample_token "0xABCD" |}.
Proof.
  destruct (POST_create_jwt (J := reference_jose) Reference.ref_sign_open
              sample_secret sample_now) as [Hpresent _].
  destruct (Hpresent "0xABCD" sample_signature sample_publicKey sample_nonce)
    as [[Hissue _] _]; try discriminate.
  destruct Hissue as (token & Htoken & Hresponse).
  - split; vm_compute; reflexivity.
  - rewrite sample_token_created in Htoken. injection Htoken as <-. exact Hresponse.
Defined.

Lemma validateNonce_characterisation_witness :
  length (split "|" sample_nonce) = 3%nat /\
  nonce_mac_authentic (J := reference_jose) (Auth.secret sample_secret) sample_nonce sample_now /\
  JS.gt (nonce_age sample_nonce sample_now) (Int (5 * 60 * 1000)) = false /\
  JS.lt (nonce_age sample_nonce sample_now) (Int (-60000)) = false.
Proof.
  apply (validateNonce_characterisation (J := reference_jose)
           sample_secret sample_nonce sample_now).
  vm_compute. reflexivity.
Defined.

Lemma createNonce_validateNonce_witness :
  exists nonce timestamp random signature,
    Auth.createNonce (J := reference_jose) sample_secret sample_now sample_random
      = Return nonce /\
    Auth.validateNonce (J := reference_jose) sample_secret nonce sample_now = Return true /\
    split "|" nonce = [timestamp; random; signature] /\
    timestamp = Number_toString sample_now /\
    random = hex_of_bytes sample_random /\
    signature = sign_compact (JoseLib := reference_jose)
                  {[ "payload" := JStr (timestamp +:+ "|" +:+ random) ]}
                  (Auth.secret sample_secret) /\
    count_char "|" timestamp = 0%nat /\
    count_char "|" random = 0%nat /\
    count_char "|" signature = 0%nat.
Proof.
  exact (createNonce_validateNonce (J := reference_jose)
           sample_secret sample_now sample_random).
Defined.

Lemma validateNonce_tamper_witness :
  Auth.validateNonce (J := reference_jose) sample_secret sample_nonce sample_now
    = Return true /\
  Auth.validateNonce (J := reference_jose) sample_secret
    (set_char 12 "9" sample_nonce) sample_now = Return false.
Proof.
  split; [vm_compute; reflexivity|].
  apply (validateNonce_tamper (J := reference_jose) sample_secret sample_nonce
           sample_now sample_now 12 "9" "0").
  - vm_compute. reflexivity.
  - reflexivity.
  - discriminate.
  - left. vm_compute. lia.
Defined.

Lemma verifyToken_createToken_witness :
  exists token payload,
    Auth.createToken (J := reference_jose) sample_secret "0xABCD" sample_now
      = Return token /\
    Auth.verifyToken (J := reference_jose) sample_secret (Some token)
      (sample_now + 60 * 60 * 1000) = Return (Some payload) /\
    payload !! "address" = Some (JStr "0xABCD").
Proof.
  apply (verifyToken_createToken (J := reference_jose) sample_secret "0xABCD" sample_now).
  vm_compute. reflexivity.
Defined.

(** The token of the sample, one day later: its expiry has passed. *)
Lemma verifyToken_null_witness :
  Auth.verifyToken (J := reference_jose) sample_secret (Some sample_token)
    (sample_now + 24 * 60 * 60 * 1000) = Return None.
Proof.
  apply (verifyToken_null (J := reference_jose) sample_secret
           (sample_now + 24 * 60 * 60 * 1000))
    with (payload := token_claims "0xABCD" sample_now) (exp := 1700086400).
  - vm_compute. reflexivity.
  - vm_compute. reflexivity.
  - vm_compute. discriminate.
Defined.

Lemma createToken_claims_witness :
  exists token payload,
    Auth.createToken (J := reference_jose) sample_secret "0xABCD" sample_now
      = Return token /\
    token = sign_compact (JoseLib := reference_jose) payload (Auth.secret sample_secret) /\
    verify_compact (JoseLib := reference_jose) token (Auth.secret sample_secret)
      = Return payload /\
    payload !! "address" = Some (JStr "0xABCD") /\
    payload !! "exp" = Some (JNum (sample_now / 1000 + 86400)) /\
    payload !! "iat" = None /\
    (forall claim, is_Some (payload !! claim) <-> claim = "address" \/ claim = "exp").
Proof.
  exact (createToken_claims (J := reference_jose) sample_secret "0xABCD" sample_now).
Defined.

(** The claims of the sample token: an address and an expiry, no issuance
    time. *)
Lemma createToken_payload_without_issuedAt :
  Auth.createToken (J := reference_jose) sample_secret "0xABCD" sample_now
    = Return sample_token /\
  verify_compact (JoseLib := reference_jose) sample_token (Auth.secret sample_secret)
    = Return (token_claims "0xABCD" sample_now) /\
  token_claims "0xABCD" sample_now !! "address" = Some (JStr "0xABCD") /\
  token_claims "0xABCD" sample_now !! "exp" = Some (JNum 1700086400) /\
  token_claims "0xABCD" sample_now !! "iat" = None /\
  ~ encodes_address_issuedAt_expiry (token_claims "0xABCD" sample_now) "0xABCD" sample_now.
Proof.
  repeat split; try (vm_compute; reflexivity).
  intros (_ & (iat & Hiat) & _). vm_compute in Hiat. discriminate.
Qed.

Lemma check_accepts_token_without_address_witness :
  exists nonce token payload,
    Auth.createNonce (J := reference_jose) sample_secret sample_now sample_random
      = Return nonce /\
    token = nonce_signature nonce /\
    jwtVerify (J := reference_jose) token (Auth.secret sample_secret) sample_now
      = Return payload /\
    payload !! "address" = None /\
    Auth.verifyToken (J := reference_jose) sample_secret (Some token) sample_now
      = Return (Some payload) /\
    Check.GET (J := reference_jose) sample_secret (Some token) sample_now =
      Return {| status := 200; body := CheckBody true None |}.
Proof.
  exact (check_accepts_token_without_address (J := reference_jose)
           sample_secret sample_now sample_random sample_now).
Defined.

(** A signature field that is not hexadecimal: the verifier returns false,
    it does not throw. *)
Lemma verifyWalletSignature_malformed_returns_false :
  is_0x_hex "0xzz" = false /\
  Auth.verifyWalletSignature Reference.ref_sign_open CreateJwt.AUTH_MESSAGE
    {| Auth.signature := Some "0xzz"; Auth.publicKey := Some sample_publicKey |} "0xABCD"
  = Return false /\
  (forall e,
     Auth.verifyWalletSignature Reference.ref_sign_open CreateJwt.AUTH_MESSAGE
       {| Auth.signature := Some "0xzz"; Auth.publicKey := Some sample_publicKey |} "0xABCD"
     <> Throw e).
Proof. repeat split. discriminate. Qed.

Lemma verifyWalletSignature_never_throws_witness :
  Auth.verifyWalletSignature Reference.ref_sign_open CreateJwt.AUTH_MESSAGE
    {| Auth.signature := Some "0xzz"; Auth.publicKey := Some sample_publicKey |} "0xABCD"
  = Return false.
Proof.
  apply (verifyWalletSignature_never_throws Reference.ref_sign_open CreateJwt.AUTH_MESSAGE
           {| Auth.signature := Some "0xzz"; Auth.publicKey := Some sample_publicKey |}
           "0xABCD")
    with (sigHex := "0xzz").
  - reflexivity.
  - reflexivity.
  - vm_compute. lia.
Defined.

(** * Further properties of the code *)

(** ** [auth.ts]: validity windows and what the checks leave open *)

Section AuthWindows.
Context {J : JoseLib}.
Variable JWT_SECRET : string.

Local Abbreviation secret := (Auth.secret JWT_SECRET).
Local Abbreviation validateNonce := (Auth.validateNonce JWT_SECRET).
Local Abbreviation createNonce := (Auth.createNonce JWT_SECRET).
Local Abbreviation createToken := (Auth.createToken JWT_SECRET).
Local Abbreviation verifyToken := (Auth.verifyToken JWT_SECRET).

(** X1.  The validity window of a nonce.  A nonce that [createNonce]
    returned at clock reading [T] is accepted by [validateNonce] at [now]
    exactly when [T - 60000 <= now <= T + 300000], both ends included: up to
    one minute before its creation (clock skew) and up to five minutes
    after. *)
Theorem created_nonce_window (T : Z) (randomBytes : Uint8Array) (now : Z) :
  exists nonce,
    createNonce T randomBytes = Return nonce /\
    (validateNonce nonce now = Return true <-> T - 60000 <= now <= T + 300000) /\
    (validateNonce nonce now = Return false <-> now < T - 60000 \/ T + 300000 < now).
Proof.
  exists (created_nonce JWT_SECRET T randomBytes).
  split; [apply createNonce_eq|].
  rewrite validateNonce_created.
  change Auth.NONCE_EXPIRY_MS with 300000.
  destruct (Z.ltb_spec 300000 (now - T)); destruct (Z.ltb_spec (now - T) (-60000));
    cbn [negb andb]; split; split; intros Hr; try discriminate; try reflexivity; try lia.
Qed.

(** The result of [verifyToken] on a created token, by the clock. *)
Lemma verifyToken_created (address : string) (issued now : Z) :
  verifyToken (Some (sign_compact (token_claims address issued) secret)) now =
  Return (if epoch issued + 24 * 60 * 60 <=? epoch now then None
          else Some (token_claims address issued)).
Proof.
  rewrite verifyToken_present by apply sign_compact_nonempty.
  unfold jwtVerify. rewrite verify_sign_compact. cbn [JS.bind].
  destruct (Z.leb_spec (epoch issued + 24 * 60 * 60) (epoch now)) as [Hle|Hlt].
  - destruct (jwt_claims_set_expired (token_claims address issued) now
                (epoch issued + 24 * 60 * 60)) as [e ->]; [|exact Hle|reflexivity].
    apply token_claims_lookup.
  - now rewrite jwt_claims_set_token.
Qed.

(** X2.  Expiry of a token.  The token that [createToken] returned at
    [issued] verifies to its payload while the whole seconds of the clock
    are below those of the issuance plus 86400, and to [null] from then on;
    in particular it is [null] at every instant from [issued + 24h] on, and
    [GET /check] then answers 401. *)
Theorem created_token_expiry (address : string) (issued now : Z) :
  exists token,
    createToken address issued = Return token /\
    (verifyToken (Some token) now = Return None
       <-> issued / 1000 + 86400 <= now / 1000) /\
    (verifyToken (Some token) now = Return (Some (token_claims address issued))
       <-> now / 1000 < issued / 1000 + 86400) /\
    (issued + 24 * 60 * 60 * 1000 <= now ->
       verifyToken (Some token) now = Return None /\
       Check.GET JWT_SECRET (Some token) now =
         Return {| status := 401; body := CheckBody false None |}).
Proof.
  exists (sign_compact (token_claims address issued) secret).
  split; [apply createToken_eq|].
  pose proof (verifyToken_created address issued now) as Hv.
  unfold epoch in Hv. change (24 * 60 * 60) with 86400 in Hv.
  assert (Hms : issued + 24 * 60 * 60 * 1000 <= now ->
                issued / 1000 + 86400 <= now / 1000).
  { intros Hnow.
    replace (issued / 1000 + 86400) with ((issued + 86400 * 1000) / 1000)
      by (rewrite Z.div_add by lia; reflexivity).
    apply Z.div_le_mono; lia. }
  split; [|split].
  - rewrite Hv. destruct (Z.leb_spec (issued / 1000 + 86400) (now / 1000));
      split; intros Hr; try discriminate; try reflexivity; lia.
  - rewrite Hv. destruct (Z.leb_spec (issued / 1000 + 86400) (now / 1000));
      split; intros Hr; try discriminate; try reflexivity; lia.
  - intros Hnow%Hms.
    destruct (Z.leb_spec (issued / 1000 + 86400) (now / 1000)); [|lia].
    split; [exact Hv|].
    unfold Check.GET.
    destruct (sign_compact _ _) as [|c r] eqn:E; [now apply sign_compact_nonempty in E|].
    cbn [truthy_string negb]. rewrite Hv. reflexivity.
Qed.

(** X3.  A session token is not a nonce signature.  Whatever timestamp and
    random segment are put before it, a string whose signature segment is a
    token from [createToken] is refused by [validateNonce]: the token has no
    claim [payload]. *)
Theorem session_token_is_no_nonce_signature
  (address : string) (issued : Z) (timestamp random : string) (now : Z) :
  exists token,
    createToken address issued = Return token /\
    validateNonce (timestamp +:+ "|" +:+ random +:+ "|" +:+ token) now = Return false.
Proof.
  exists (sign_compact (token_claims address issued) secret).
  split; [apply createToken_eq|].
  change (timestamp +:+ "|" +:+ random +:+ "|" +:+ ?t)
    with (timestamp +:+ String "|" (random +:+ String "|" t)).
  rewrite validateNonce_eq.
  destruct (Nat.eqb_spec
              (length (split "|" (timestamp +:+ String "|"
                 (random +:+ String "|" (sign_compact (token_claims address issued) secret)))))
              3) as [Hl|Hl]; [|reflexivity].
  rewrite length_split, !count_char_app in Hl. cbn [count_char] in Hl.
  rewrite count_char_app in Hl. cbn [count_char] in Hl.
  rewrite Ascii.eqb_refl, sign_compact_no_bar in Hl.
  assert (Ht : count_char "|" timestamp = 0%nat) by lia.
  assert (Hr : count_char "|" random = 0%nat) by lia.
  unfold signature_check, nonce_timestamp, nonce_random, nonce_signature.
  rewrite (split3 "|" _ _ _ Ht Hr (sign_compact_no_bar _ _)). cbn [nth].
  unfold jwtVerify. rewrite verify_sign_compact. cbn [JS.bind].
  destruct (jwt_claims_set _ now) as [verified|e] eqn:Hc; [|reflexivity].
  apply jwt_claims_set_inv in Hc. subst verified.
  unfold token_claims.
  now rewrite lookup_insert_ne, lookup_singleton_ne by discriminate.
Qed.

(** X4.  [validateNonce] does not ask that the timestamp is a number.  When
    [parseInt] of the timestamp segment is [NaN], both age comparisons are
    false: with a signature of the server over it, such a nonce is accepted
    at every time. *)
Theorem nonce_with_non_numeric_timestamp (timestamp random : string) (now : Z) :
  count_char "|" timestamp = 0%nat ->
  count_char "|" random = 0%nat ->
  parseInt timestamp = NaN ->
  validateNonce
    (timestamp +:+ "|" +:+ random +:+ "|"
     +:+ sign_compact {[ "payload" := JStr (timestamp +:+ "|" +:+ random) ]} secret) now
  = Return true.
Proof.
  intros Ht Hr Hnan.
  change (timestamp +:+ "|" +:+ random +:+ "|" +:+ ?t)
    with (timestamp +:+ String "|" (random +:+ String "|" t)).
  rewrite validateNonce_eq.
  unfold signature_check, nonce_age, nonce_timestamp, nonce_random, nonce_signature.
  rewrite (split3 "|" _ _ _ Ht Hr (sign_compact_no_bar _ _)).
  cbn [length nth Nat.eqb andb].
  rewrite jwtVerify_nonce_signature, lookup_singleton_eq.
  cbn [Auth.strict_ne]. rewrite String.eqb_refl, Hnan. reflexivity.
Qed.

End AuthWindows.

Section VerifierPrefix.
Variable crypto_sign_open_ok : Uint8Array -> Uint8Array -> Uint8Array -> bool.

(** X5.  [verifyWalletSignature] does not look at the first two characters
    of the fields: whatever they are, the result is that for the prefix
    [0x]. *)
Theorem verifyWalletSignature_prefix_unchecked
  (message sigDigits keyDigits address : string) (a b c d : ascii) :
  Auth.verifyWalletSignature crypto_sign_open_ok message
    {| Auth.signature := Some (String a (String b sigDigits));
       Auth.publicKey := Some (String c (String d keyDigits)) |} address
  = Auth.verifyWalletSignature crypto_sign_open_ok message
      {| Auth.signature := Some ("0x" +:+ sigDigits);
         Auth.publicKey := Some ("0x" +:+ keyDigits) |} address.
Proof. now rewrite !verifyWalletSignature_eq. Qed.

End VerifierPrefix.

(** ** The route handlers: statuses, cookies and how the routes compose *)

(** Every field that [POST /create-jwt] requires passes its truthiness
    test. *)
Definition required_fields_present (b : CreateJwt.Body) : bool :=
  truthy_string (CreateJwt.address b)
  && truthy_string (CreateJwt.nonce b)
  && match CreateJwt.signature b with
     | Some envelope =>
         truthy_string (Auth.signature envelope) && truthy_string (Auth.publicKey envelope)
     | None => false
     end.

(** The cookie that [POST /wallet-login] sets for a token. *)
Definition login_cookie (NODE_ENV : option string) (token : string) : Cookies.Cookie :=
  {| Cookies.name := "authToken";
     Cookies.value := token;
     Cookies.httpOnly := true;
     Cookies.secure := Cookies.is_production NODE_ENV;
     Cookies.sameSite := "lax";
     Cookies.maxAge := 86400;
     Cookies.path := "/" |}.

Section RouteFacts.
Context {J : JoseLib}.
Variable crypto_sign_open_ok : Uint8Array -> Uint8Array -> Uint8Array -> bool.
Variable JWT_SECRET : string.
Variable NODE_ENV : option string.

Local Abbreviation POST := (CreateJwt.POST crypto_sign_open_ok JWT_SECRET).
Local Abbreviation validateNonce := (Auth.validateNonce JWT_SECRET).
Local Abbreviation verifyWalletSignature := (Auth.verifyWalletSignature crypto_sign_open_ok).
Local Abbreviation createToken := (Auth.createToken JWT_SECRET).
Local Abbreviation verifyToken := (Auth.verifyToken JWT_SECRET).

Lemma truthy_string_inv (o : option string) :
  truthy_string o = true -> exists s, o = Some s /\ s <> EmptyString.
Proof.
  destruct o as [[|c r]|]; try discriminate.
  intros _. exists (String c r). split; [reflexivity | discriminate].
Qed.

Lemma POST_incomplete (b : CreateJwt.Body) (now : Z) :
  required_fields_present b = false ->
  exists error,
    POST (Return (CreateJwt.JsonObject b)) now =
    Return {| status := 400; body := ErrorBody error |}.
Proof.
  unfold required_fields_present, CreateJwt.POST, CreateJwt.destructure.
  cbn [JS.bind].
  destruct (truthy_string (CreateJwt.address b));
    destruct (truthy_string (CreateJwt.nonce b));
    destruct (CreateJwt.signature b) as [envelope|];
    cbn [negb orb andb CreateJwt.truthy_object default from_option id try_catch];
    try (intros _; eexists; reflexivity).
  destruct (truthy_string (Auth.signature envelope));
    destruct (truthy_string (Auth.publicKey envelope));
    cbn [negb orb andb try_catch]; try discriminate;
    intros _; eexists; reflexivity.
Qed.

Lemma POST_present (b : CreateJwt.Body) (now : Z) :
  required_fields_present b = true ->
  exists address sigHex keyHex nonce,
    address <> EmptyString /\ sigHex <> EmptyString /\ keyHex <> EmptyString /\
    nonce <> EmptyString /\
    b = {| CreateJwt.address := Some address;
           CreateJwt.signature :=
             Some {| Auth.signature := Some sigHex; Auth.publicKey := Some keyHex |};
           CreateJwt.nonce := Some nonce |}.
Proof.
  unfold required_fields_present.
  destruct b as [a sg n]; cbn [CreateJwt.address CreateJwt.signature CreateJwt.nonce].
  destruct sg as [[s k]|]; cbn [Auth.signature Auth.publicKey];
    [|now rewrite andb_false_r].
  intros H. apply andb_true_iff in H as [H1 H2].
  apply andb_true_iff in H1 as [Ha Hn]. apply andb_true_iff in H2 as [Hs Hk].
  apply truthy_string_inv in Ha as (address & -> & Ha).
  apply truthy_string_inv in Hn as (nonce & -> & Hn).
  apply truthy_string_inv in Hs as (sigHex & -> & Hs).
  apply truthy_string_inv in Hk as (keyHex & -> & Hk).
  exists address, sigHex, keyHex, nonce. repeat split; assumption.
Qed.

(** X6.  Statuses of [POST /create-jwt].  The handler never throws.  It
    answers 500 exactly when the body is not JSON or is the JSON text
    [null].  For a JSON object it answers 400 exactly when a required field
    (the address, the nonce, the signature object or one of its two fields)
    is missing or empty, and 200 or 401 otherwise; a failure inside the
    nonce or signature check, malformed hexadecimal included, is a 401 and
    never a 500.  The body carries a token exactly when the status is
    200. *)
Theorem POST_create_jwt_status (request_json : Completion CreateJwt.RequestJson) (now : Z) :
  exists response,
    POST request_json now = Return response /\
    (status response = 500 <->
       (exists e, request_json = Throw e) \/ request_json = Return CreateJwt.JsonNull) /\
    (forall b, request_json = Return (CreateJwt.JsonObject b) ->
       (status response = 400 <-> required_fields_present b = false) /\
       (required_fields_present b = true ->
          status response = 200 \/ status response = 401)) /\
    ((exists token address, body response = TokenBody token address)
       <-> status response = 200).
Proof.
  destruct request_json as [[|b]|e].
  - eexists. split; [reflexivity|]. cbn [status body NextResponse_json].
    split; [split; [intros _; now right | reflexivity]|].
    split; [intros b [=]|].
    split; [intros (? & ? & ?); discriminate | discriminate].
  - destruct (required_fields_present b) eqn:Hb.
    + destruct (POST_present b now Hb) as (address & sigHex & keyHex & nonce
                                            & Ha & Hs & Hk & Hn & ->).
      pose proof (POST_complete crypto_sign_open_ok JWT_SECRET address sigHex keyHex nonce now
                    Ha Hs Hk Hn) as HP.
      cbv zeta in HP.
      rewrite (validateNonce_eq JWT_SECRET nonce now) in HP.
      rewrite (verifyWalletSignature_eq crypto_sign_open_ok) in HP.
      cbn [Auth.signature Auth.publicKey] in HP.
      set (nonceValid := _ && _ && _ && _) in HP.
      set (signatureValid := _ && _ && crypto_sign_open_ok _ _ _) in HP.
      destruct nonceValid; destruct signatureValid;
        (eexists; split; [exact HP|]); cbn [status body];
        (split; [split; [discriminate | intros [[? ?]|?]; discriminate]|]);
        (split; [intros b' [= <-]; rewrite Hb;
                 split; [split; discriminate | intros _; auto] |]);
        (split; [intros (? & ? & ?); try discriminate; reflexivity
                | intros ?; try discriminate; eexists _, _; reflexivity]).
    + destruct (POST_incomplete b now Hb) as [error ->].
      eexists. split; [reflexivity|]. cbn [status body].
      split; [split; [discriminate | intros [[? ?]|?]; discriminate]|].
      split; [intros b' [= <-]; rewrite Hb; split; [split; reflexivity | discriminate]|].
      split; [intros (? & ? & ?); discriminate | discriminate].
  - eexists. split; [reflexivity|]. cbn [status body NextResponse_json].
    split; [split; [intros _; left; now exists e | reflexivity]|].
    split; [intros b [=]|].
    split; [intros (? & ? & ?); discriminate | discriminate].
Qed.

Lemma created_nonce_nonempty (T : Z) (randomBytes : Uint8Array) :
  created_nonce JWT_SECRET T randomBytes <> EmptyString.
Proof.
  intros E. pose proof (created_nonce_split JWT_SECRET T randomBytes) as Hs.
  rewrite E in Hs. discriminate.
Qed.

Lemma verifyWalletSignature_true_nonempty (message sigHex keyHex address : string) :
  verifyWalletSignature message
    {| Auth.signature := Some sigHex; Auth.publicKey := Some keyHex |} address = Return true ->
  sigHex <> EmptyString /\ keyHex <> EmptyString.
Proof.
  rewrite verifyWalletSignature_eq. cbn [Auth.signature Auth.publicKey].
  intros [= H]. apply andb_true_iff in H as [H _]. apply andb_true_iff in H as [Hs Hk].
  split; intros ->; discriminate.
Qed.

(** [POST /create-jwt] on a created nonce, by the clock. *)
Lemma POST_created_nonce
  (T : Z) (randomBytes : Uint8Array) (address sigHex keyHex : string) (now : Z) :
  address <> EmptyString ->
  verifyWalletSignature CreateJwt.AUTH_MESSAGE
    {| Auth.signature := Some sigHex; Auth.publicKey := Some keyHex |} address = Return true ->
  POST (Return (CreateJwt.JsonObject
          {| CreateJwt.address := Some address;
             CreateJwt.signature :=
               Some {| Auth.signature := Some sigHex; Auth.publicKey := Some keyHex |};
             CreateJwt.nonce := Some (created_nonce JWT_SECRET T randomBytes) |})) now =
  Return
    (if negb (300000 <? now - T) && negb (now - T <? -60000)
     then {| status := 200;
             body := TokenBody (sign_compact (token_claims address now)
                                  (Auth.secret JWT_SECRET)) address |}
     else {| status := 401;
             body := ErrorBody
               "Invalid or expired nonce. Please request a new nonce and try again." |}).
Proof.
  intros Ha Hverify.
  destruct (verifyWalletSignature_true_nonempty _ _ _ _ Hverify) as [Hs Hk].
  rewrite (POST_complete crypto_sign_open_ok JWT_SECRET address sigHex keyHex _ now
             Ha Hs Hk (created_nonce_nonempty T randomBytes)).
  rewrite Hverify, validateNonce_created.
  change Auth.NONCE_EXPIRY_MS with 300000.
  destruct (negb (300000 <? now - T) && negb (now - T <? -60000)); reflexivity.
Qed.

(** X7.  The nonce route and the token route together.  [GET /nonce]
    answers 200 with a nonce and the headers that forbid caching.  Posted
    to [/create-jwt] with a non-empty address and an envelope that verifies,
    this nonce gives 200 and the token of the address at every time from one
    minute before to five minutes after its creation (so a second request
    with the same nonce and signature succeeds as well), and 401 at any
    other time. *)
Theorem nonce_route_then_create_jwt
  (T : Z) (randomBytes : Uint8Array) (address sigHex keyHex : string) (now : Z) :
  address <> EmptyString ->
  verifyWalletSignature CreateJwt.AUTH_MESSAGE
    {| Auth.signature := Some sigHex; Auth.publicKey := Some keyHex |} address = Return true ->
  exists nonce token,
    NonceRoute.GET JWT_SECRET T randomBytes =
      Return {| NonceRoute.status := 200;
                NonceRoute.body := nonce;
                NonceRoute.headers :=
                  [ ("Content-Type", "text/plain");
                    ("Cache-Control", "no-store, no-cache, must-revalidate") ] |} /\
    createToken address now = Return token /\
    let request :=
      Return (CreateJwt.JsonObject
        {| CreateJwt.address := Some address;
           CreateJwt.signature :=
             Some {| Auth.signature := Some sigHex; Auth.publicKey := Some keyHex |};
           CreateJwt.nonce := Some nonce |}) in
    (T - 60000 <= now <= T + 300000 ->
       POST request now = Return {| status := 200; body := TokenBody token address |}) /\
    (now < T - 60000 \/ T + 300000 < now ->
       POST request now =
       Return {| status := 401;
                 body := ErrorBody
                   "Invalid or expired nonce. Please request a new nonce and try again." |}).
Proof.
  intros Ha Hverify.
  exists (created_nonce JWT_SECRET T randomBytes),
         (sign_compact (token_claims address now) (Auth.secret JWT_SECRET)).
  split; [reflexivity|]. split; [apply createToken_eq|].
  cbv zeta.
  rewrite (POST_created_nonce T randomBytes address sigHex keyHex now Ha Hverify).
  destruct (Z.ltb_spec 300000 (now - T)); destruct (Z.ltb_spec (now - T) (-60000));
    cbn [negb andb]; split; intros Hnow; try reflexivity; lia.
Qed.

End RouteFacts.

Section SessionFacts.
Context {J : JoseLib}.
Variable crypto_sign_open_ok : Uint8Array -> Uint8Array -> Uint8Array -> bool.
Variable JWT_SECRET : string.
Variable NODE_ENV : option string.

Local Abbreviation createToken := (Auth.createToken JWT_SECRET).
Local Abbreviation verifyToken := (Auth.verifyToken JWT_SECRET).
Local Abbreviation login := (WalletLogin.POST JWT_SECRET NODE_ENV).
Local Abbreviation ProtectedPage := (Protected.ProtectedPage JWT_SECRET).

(** [verifyToken] never throws. *)
Lemma verifyToken_returns (token : option string) (now : Z) :
  exists result, verifyToken token now = Return result.
Proof.
  destruct token as [[|c r]|]; try (eexists; reflexivity).
  rewrite verifyToken_present by discriminate.
  destruct (jwtVerify _ _ _); eexists; reflexivity.
Qed.

Lemma login_present (token : string) (now : Z) :
  token <> EmptyString ->
  login (Return (WalletLogin.JsonObject (Some token))) now =
  match verifyToken (Some token) now with
  | Return (Some _) =>
      Return {| Cookies.status := 200;
                Cookies.body := Cookies.SuccessBody;
                Cookies.cookies := [login_cookie NODE_ENV token] |}
  | _ =>
      Return {| Cookies.status := 401;
                Cookies.body := Cookies.ErrorBody "Invalid token";
                Cookies.cookies := [] |}
  end.
Proof.
  intros Hne. destruct token as [|c r]; [congruence|].
  unfold WalletLogin.POST, WalletLogin.destructure.
  cbn [JS.bind truthy_string negb].
  destruct (verifyToken_returns (Some (String c r)) now) as [[payload|] ->]; reflexivity.
Qed.

(** X8.  [POST /wallet-login] sets the cookie only for a token that
    verifies.  The handler never throws.  Either the body holds a non-empty
    token for which [verifyToken] returns a payload, and the response is 200
    with exactly one cookie: [authToken], holding that token, [HttpOnly],
    [SameSite=lax], path [/], a lifetime of 86400 seconds, [Secure] exactly
    in production.  Or the response sets no cookie and carries an error: 400
    when the token is missing or empty, 401 when [verifyToken] returns
    [null], 500 when the body is not JSON or is [null]. *)
Theorem wallet_login_cookie (request_json : Completion WalletLogin.RequestJson) (now : Z) :
  exists response,
    login request_json now = Return response /\
    ((exists token payload,
        request_json = Return (WalletLogin.JsonObject (Some token)) /\
        token <> EmptyString /\
        verifyToken (Some token) now = Return (Some payload) /\
        response = {| Cookies.status := 200;
                      Cookies.body := Cookies.SuccessBody;
                      Cookies.cookies := [login_cookie NODE_ENV token] |})
     \/
     (Cookies.cookies response = [] /\
      (exists error, Cookies.body response = Cookies.ErrorBody error) /\
      ((Cookies.status response = 400 /\
        exists token, request_json = Return (WalletLogin.JsonObject token) /\
                      truthy_string token = false)
       \/ (Cookies.status response = 401 /\
           exists token, request_json = Return (WalletLogin.JsonObject (Some token)) /\
                         token <> EmptyString /\
                         verifyToken (Some token) now = Return None)
       \/ (Cookies.status response = 500 /\
           (request_json = Return WalletLogin.JsonNull \/
            exists e, request_json = Throw e))))).
Proof.
  destruct request_json as [[|[[|c r]|]]|e].
  - eexists. split; [reflexivity|]. right. cbn.
    split; [reflexivity|]. split; [eexists; reflexivity|].
    right. right. split; [reflexivity | now left].
  - eexists. split; [reflexivity|]. right. cbn.
    split; [reflexivity|]. split; [eexists; reflexivity|].
    left. split; [reflexivity|]. eexists. split; reflexivity.
  - rewrite login_present by discriminate.
    destruct (verifyToken_returns (Some (String c r)) now) as [[payload|] Hv]; rewrite Hv.
    + eexists. split; [reflexivity|]. left.
      exists (String c r), payload. repeat split; try assumption. discriminate.
    + eexists. split; [reflexivity|]. right. cbn.
      split; [reflexivity|]. split; [eexists; reflexivity|].
      right. left. split; [reflexivity|].
      exists (String c r). repeat split; try assumption. discriminate.
  - eexists. split; [reflexivity|]. right. cbn.
    split; [reflexivity|]. split; [eexists; reflexivity|].
    left. split; [reflexivity|]. eexists. split; reflexivity.
  - eexists. split; [reflexivity|]. right. cbn.
    split; [reflexivity|]. split; [eexists; reflexivity|].
    right. right. split; [reflexivity | right; now exists e].
Qed.

Lemma check_present (token : string) (now : Z) :
  token <> EmptyString ->
  Check.GET JWT_SECRET (Some token) now =
  match verifyToken (Some token) now with
  | Return (Some payload) =>
      Return {| status := 200; body := CheckBody true (payload !! "address") |}
  | _ => Return {| status := 401; body := CheckBody false None |}
  end.
Proof.
  intros Hne. destruct token as [|c r]; [congruence|].
  unfold Check.GET. cbn [truthy_string negb].
  destruct (verifyToken_returns (Some (String c r)) now) as [[payload|] ->]; reflexivity.
Qed.

Lemma ProtectedPage_created (address walletAddress : string) (issued now : Z) :
  now / 1000 < issued / 1000 + 86400 ->
  ProtectedPage walletAddress
    (Some (sign_compact (token_claims address issued) (Auth.secret JWT_SECRET))) now =
  Return (if String.eqb (toLowerCase address) (toLowerCase walletAddress)
          then Protected.Authenticated address
          else Protected.Unauthorized).
Proof.
  intros Hnow. unfold Protected.ProtectedPage.
  rewrite verifyToken_created.
  unfold epoch. change (24 * 60 * 60) with 86400.
  destruct (Z.leb_spec (issued / 1000 + 86400) (now / 1000)); [lia|].
  cbn [JS.bind].
  destruct (token_claims_lookup address issued) as (-> & _).
  cbn [Protected.toLowerCase_claim JS.bind Protected.address_text].
  destruct (String.eqb _ _); reflexivity.
Qed.

(** X9.  The whole sign-in, route by route.  A nonce served by
    [GET /nonce] at [T]; posted to [/create-jwt] at [t1] inside its window,
    with a non-empty address and an envelope that verifies, it gives 200 and
    a token; [POST /wallet-login] with this token at [t2] gives 200 and
    stores the token in the cookie [authToken]; [GET /check] with this
    cookie at [t3] gives 200, [authenticated: true] and the address that was
    posted; and the protected page of that address shows it as
    authenticated.  [t2] and [t3] lie before the expiry of the token. *)
Theorem sign_in_end_to_end
  (T : Z) (randomBytes : Uint8Array) (address sigHex keyHex : string) (t1 t2 t3 : Z) :
  address <> EmptyString ->
  Auth.verifyWalletSignature crypto_sign_open_ok CreateJwt.AUTH_MESSAGE
    {| Auth.signature := Some sigHex; Auth.publicKey := Some keyHex |} address = Return true ->
  T - 60000 <= t1 <= T + 300000 ->
  t2 / 1000 < t1 / 1000 + 86400 ->
  t3 / 1000 < t1 / 1000 + 86400 ->
  exists nonce token,
    NonceRoute.GET JWT_SECRET T randomBytes =
      Return {| NonceRoute.status := 200;
                NonceRoute.body := nonce;
                NonceRoute.headers :=
                  [ ("Content-Type", "text/plain");
                    ("Cache-Control", "no-store, no-cache, must-revalidate") ] |} /\
    CreateJwt.POST crypto_sign_open_ok JWT_SECRET
      (Return (CreateJwt.JsonObject
         {| CreateJwt.address := Some address;
            CreateJwt.signature :=
              Some {| Auth.signature := Some sigHex; Auth.publicKey := Some keyHex |};
            CreateJwt.nonce := Some nonce |})) t1
      = Return {| status := 200; body := TokenBody token address |} /\
    login (Return (WalletLogin.JsonObject (Some token))) t2
      = Return {| Cookies.status := 200;
                  Cookies.body := Cookies.SuccessBody;
                  Cookies.cookies := [login_cookie NODE_ENV token] |} /\
    Check.GET JWT_SECRET (Some (Cookies.value (login_cookie NODE_ENV token))) t3
      = Return {| status := 200; body := CheckBody true (Some (JStr address)) |} /\
    ProtectedPage address (Some (Cookies.value (login_cookie NODE_ENV token))) t3
      = Return (Protected.Authenticated address).
Proof.
  intros Ha Hverify Ht1 Ht2 Ht3.
  exists (created_nonce JWT_SECRET T randomBytes),
         (sign_compact (token_claims address t1) (Auth.secret JWT_SECRET)).
  split; [reflexivity|]. split.
  { rewrite (POST_created_nonce crypto_sign_open_ok JWT_SECRET
               T randomBytes address sigHex keyHex t1 Ha Hverify).
    destruct (Z.ltb_spec 300000 (t1 - T)); destruct (Z.ltb_spec (t1 - T) (-60000));
      cbn [negb andb]; try reflexivity; lia. }
  cbn [Cookies.value login_cookie].
  pose proof (verifyToken_created JWT_SECRET address t1) as Hv.
  unfold epoch in Hv. change (24 * 60 * 60) with 86400 in Hv.
  split; [|split].
  - rewrite login_present by apply sign_compact_nonempty. rewrite Hv.
    destruct (Z.leb_spec (t1 / 1000 + 86400) (t2 / 1000)); [lia | reflexivity].
  - rewrite check_present by apply sign_compact_nonempty. rewrite Hv.
    destruct (Z.leb_spec (t1 / 1000 + 86400) (t3 / 1000)); [lia|].
    now destruct (token_claims_lookup address t1) as (-> & _).
  - rewrite ProtectedPage_created by exact Ht3. now rewrite String.eqb_refl.
Qed.

(** X10.  The cookie of [POST /wallet-logout] ends the session.  The
    response is 200 and sets exactly one cookie, [authToken], with an empty
    value and a lifetime of zero.  Whether the client then sends no cookie
    or sends the empty value back, [GET /check] answers 401, the protected
    page shows the notice for every address, and [POST /wallet-login] with
    this value answers 400. *)
Theorem wallet_logout_ends_session (walletAddress : string) (now : Z) :
  exists cookie,
    WalletLogout.POST NODE_ENV =
      {| Cookies.status := 200;
         Cookies.body := Cookies.SuccessBody;
         Cookies.cookies := [cookie] |} /\
    Cookies.name cookie = "authToken" /\
    Cookies.value cookie = EmptyString /\
    Cookies.maxAge cookie = 0 /\
    (forall authToken, authToken = None \/ authToken = Some (Cookies.value cookie) ->
       Check.GET JWT_SECRET authToken now =
         Return {| status := 401; body := CheckBody false None |} /\
       ProtectedPage walletAddress authToken now = Return Protected.Unauthorized /\
       exists error,
         login (Return (WalletLogin.JsonObject authToken)) now =
         Return {| Cookies.status := 400;
                   Cookies.body := Cookies.ErrorBody error;
                   Cookies.cookies := [] |}).
Proof.
  eexists. split; [reflexivity|]. cbn [Cookies.name Cookies.value Cookies.maxAge].
  repeat split; try reflexivity; destruct H as [-> | ->]; try reflexivity;
    eexists; reflexivity.
Qed.

(** X11.  The protected page compares addresses without regard to case.
    For the token of an address, before its expiry: the page of a wallet
    address shows the address as authenticated when the two addresses are
    equal after [toLowerCase], and the notice otherwise. *)
Theorem ProtectedPage_case_insensitive (address walletAddress : string) (issued now : Z) :
  now / 1000 < issued / 1000 + 86400 ->
  exists token,
    createToken address issued = Return token /\
    (toLowerCase address = toLowerCase walletAddress ->
       ProtectedPage walletAddress (Some token) now = Return (Protected.Authenticated address)) /\
    (toLowerCase address <> toLowerCase walletAddress ->
       ProtectedPage walletAddress (Some token) now = Return Protected.Unauthorized).
Proof.
  intros Hnow. eexists. split; [apply createToken_eq|].
  rewrite ProtectedPage_created by exact Hnow.
  destruct (String.eqb_spec (toLowerCase address) (toLowerCase walletAddress));
    split; intros; congruence.
Qed.

(** X12.  The protected page authenticates only the bearer of a valid token
    for that address: when it shows an address, the cookie holds a token for
    which [verifyToken] returns a payload whose [address] is that string and
    equals the address of the page up to case. *)
Theorem ProtectedPage_sound
  (walletAddress address : string) (authToken : option string) (now : Z) :
  ProtectedPage walletAddress authToken now = Return (Protected.Authenticated address) ->
  exists token payload,
    authToken = Some token /\
    verifyToken (Some token) now = Return (Some payload) /\
    payload !! "address" = Some (JStr address) /\
    toLowerCase address = toLowerCase walletAddress.
Proof.
  unfold Protected.ProtectedPage.
  destruct (verifyToken_returns authToken now) as [[payload|] Hv]; rewrite Hv;
    cbn [JS.bind]; [|discriminate].
  destruct authToken as [token|]; [|discriminate].
  destruct (payload !! "address") as [[| | |s]|] eqn:Hp;
    cbn [Protected.toLowerCase_claim JS.bind Protected.address_text]; try discriminate.
  destruct (String.eqb_spec (toLowerCase s) (toLowerCase walletAddress)) as [E|E];
    cbn [negb]; [|discriminate].
  intros [= <-]. exists token, payload. repeat split; assumption.
Qed.

Lemma nonce_signature_verifies (T : Z) (randomBytes : Uint8Array) (now : Z) :
  let payload := Number_toString T +:+ "|" +:+ hex_of_bytes randomBytes in
  nonce_signature (created_nonce JWT_SECRET T randomBytes) =
    sign_compact {[ "payload" := JStr payload ]} (Auth.secret JWT_SECRET) /\
  verifyToken (Some (nonce_signature (created_nonce JWT_SECRET T randomBytes))) now =
    Return (Some {[ "payload" := JStr payload ]}).
Proof.
  cbv zeta. unfold nonce_signature. rewrite created_nonce_split. cbn [nth].
  split; [reflexivity|].
  rewrite verifyToken_present by apply sign_compact_nonempty.
  now rewrite jwtVerify_nonce_signature.
Qed.

(** X13.  A token without an address: [GET /check] and the protected page
    disagree.  The signature segment of a nonce from [createNonce] verifies
    as a token; [GET /check] answers 200 for it, while the protected page,
    which calls [toLowerCase] on the missing address outside any [try],
    throws a [TypeError] for every wallet address. *)
Theorem ProtectedPage_throws_without_address
  (T : Z) (randomBytes : Uint8Array) (walletAddress : string) (now : Z) :
  exists nonce message,
    Auth.createNonce JWT_SECRET T randomBytes = Return nonce /\
    Check.GET JWT_SECRET (Some (nonce_signature nonce)) now =
      Return {| status := 200; body := CheckBody true None |} /\
    ProtectedPage walletAddress (Some (nonce_signature nonce)) now =
      Throw (TypeError message).
Proof.
  destruct (nonce_signature_verifies T randomBytes now) as (Hsig & Hv).
  exists (created_nonce JWT_SECRET T randomBytes). eexists.
  split; [apply createNonce_eq|]. split.
  - rewrite check_present, Hv by (rewrite Hsig; apply sign_compact_nonempty).
    now rewrite lookup_singleton_ne by discriminate.
  - unfold Protected.ProtectedPage. rewrite Hv. cbn [JS.bind].
    rewrite lookup_singleton_ne by discriminate. reflexivity.
Qed.

End SessionFacts.

(** ** [standardizeAddress] and [getStoredABI] *)

Lemma string_length_app (a b : string) :
  String.length (a +:+ b) = (String.length a + String.length b)%nat.
Proof.
  induction a as [|c a IH]; [reflexivity|].
  change (String c a +:+ b) with (String c (a +:+ b)).
  cbn [String.length]. now rewrite IH.
Qed.

Lemma length_repeat_char (n : nat) (fill : ascii) :
  String.length (repeat_char n fill) = n.
Proof. induction n as [|n IH]; [reflexivity|]. cbn [repeat_char String.length]. now rewrite IH. Qed.

Lemma repeat_char_add (m n : nat) (fill : ascii) :
  repeat_char m fill +:+ repeat_char n fill = repeat_char (m + n) fill.
Proof.
  induction m as [|m IH]; [reflexivity|].
  cbn [repeat_char Nat.add].
  change (String fill (repeat_char m fill) +:+ repeat_char n fill)
    with (String fill (repeat_char m fill +:+ repeat_char n fill)).
  now rewrite IH.
Qed.

(** [standardizeAddress] in closed form. *)
Lemma standardizeAddress_eq (address : string) :
  Utils.standardizeAddress address =
  let clean := replace_leading_0x address in
  if (64 <? String.length clean)%nat
  then Throw (Error ("Address " +:+ address +:+ " is not a valid address"))
  else Return ("0x" +:+ repeat_char (64 - String.length clean) "0" +:+ clean).
Proof.
  unfold Utils.standardizeAddress. cbv zeta.
  destruct (Nat.ltb_spec (String.length (replace_leading_0x address)) 64) as [Hlt|Hge].
  - unfold padStart. rewrite string_length_app, length_repeat_char.
    destruct (Nat.ltb_spec 64 (64 - String.length (replace_leading_0x address)
                               + String.length (replace_leading_0x address))); [lia|].
    destruct (Nat.ltb_spec 64 (String.length (replace_leading_0x address))); [lia|].
    reflexivity.
  - destruct (Nat.ltb_spec 64 (String.length (replace_leading_0x address))); [reflexivity|].
    replace (64 - String.length (replace_leading_0x address))%nat with 0%nat by lia.
    reflexivity.
Qed.

(** X14.  The shape of a standardized address.  When the address, without
    one leading [0x], has at most 64 characters, [standardizeAddress]
    returns [0x], zeros, and these characters: 66 characters in all.  When
    it has more, [standardizeAddress] throws an error that names the
    address.  The characters are not checked to be hexadecimal digits. *)
Theorem standardizeAddress_shape (address : string) :
  let clean := replace_leading_0x address in
  ((String.length clean <= 64)%nat ->
     exists standardized,
       Utils.standardizeAddress address = Return standardized /\
       standardized = "0x" +:+ repeat_char (64 - String.length clean) "0" +:+ clean /\
       String.length standardized = 66%nat) /\
  ((64 < String.length clean)%nat ->
     Utils.standardizeAddress address =
     Throw (Error ("Address " +:+ address +:+ " is not a valid address"))).
Proof.
  cbv zeta. rewrite standardizeAddress_eq. cbv zeta.
  destruct (Nat.ltb_spec 64 (String.length (replace_leading_0x address))); split;
    intros Hlen; try lia; try reflexivity.
  eexists. split; [reflexivity|]. split; [reflexivity|].
  change ("0x" +:+ ?r) with (String "0" (String "x" r)). cbn [String.length].
  rewrite string_length_app, length_repeat_char. lia.
Qed.

(** X15.  [standardizeAddress] is idempotent: a standardized address is
    its own standard form. *)
Theorem standardizeAddress_idempotent (address standardized : string) :
  Utils.standardizeAddress address = Return standardized ->
  Utils.standardizeAddress standardized = Return standardized.
Proof.
  rewrite standardizeAddress_eq. cbv zeta.
  destruct (Nat.ltb_spec 64 (String.length (replace_leading_0x address))) as [|Hle];
    [discriminate|].
  intros [= <-]. rewrite standardizeAddress_eq. cbv zeta.
  change (replace_leading_0x ("0x" +:+ ?r)) with r.
  rewrite string_length_app, length_repeat_char.
  destruct (Nat.ltb_spec 64 (64 - String.length (replace_leading_0x address)
                             + String.length (replace_leading_0x address))); [lia|].
  replace (64 - (64 - String.length (replace_leading_0x address)
                 + String.length (replace_leading_0x address)))%nat with 0%nat by lia.
  reflexivity.
Qed.

(** X16.  Spellings of one address.  Leading zeros after the prefix do not
    matter, and the prefix [0x] is optional for digits that do not start
    with [0x] themselves: the short form, the padded form and the form
    without prefix have the same standard form. *)
Theorem standardizeAddress_spellings (digits : string) (k : nat) :
  (k + String.length digits <= 64)%nat ->
  Utils.standardizeAddress ("0x" +:+ repeat_char k "0" +:+ digits)
    = Utils.standardizeAddress ("0x" +:+ digits) /\
  Utils.standardizeAddress ("0x" +:+ digits)
    = Return ("0x" +:+ repeat_char (64 - String.length digits) "0" +:+ digits) /\
  (replace_leading_0x digits = digits ->
     Utils.standardizeAddress digits = Utils.standardizeAddress ("0x" +:+ digits)).
Proof.
  intros Hlen. rewrite !standardizeAddress_eq. cbv zeta.
  change (replace_leading_0x ("0x" +:+ ?r)) with r.
  rewrite string_length_app, length_repeat_char.
  destruct (Nat.ltb_spec 64 (k + String.length digits)); [lia|].
  destruct (Nat.ltb_spec 64 (String.length digits)); [lia|].
  split; [|split].
  - rewrite <- (string_app_assoc (repeat_char _ "0") (repeat_char k "0") digits).
    rewrite repeat_char_add.
    replace (64 - (k + String.length digits) + k)%nat
      with (64 - String.length digits)%nat by lia.
    reflexivity.
  - reflexivity.
  - intros ->.
    destruct (Nat.ltb_spec 64 (String.length digits)); [lia | reflexivity].
Qed.

(** A standardized address is not the name of a member of
    [Object.prototype]. *)
Lemma standardizeAddress_not_inherited (address standardized : string) :
  Utils.standardizeAddress address = Return standardized ->
  existsb (String.eqb standardized) Object_prototype_names = false.
Proof.
  rewrite standardizeAddress_eq. cbv zeta.
  destruct (_ <? _)%nat; [discriminate|]. intros [= <-]. reflexivity.
Qed.

(** The one key of [abiStorage]: the standard form of [0x1]. *)
Definition supra_framework_address : string :=
  "0x0000000000000000000000000000000000000000000000000000000000000001".

Section AbiStorageFacts.
Variable ModuleABI : Type.
Variable supraAccountABI : ModuleABI.

Local Abbreviation getStoredABI := (AbiStorage.getStoredABI ModuleABI supraAccountABI).

(** [getStoredABI] in closed form. *)
Lemma getStoredABI_eq (moduleAddress moduleName : string) :
  getStoredABI moduleAddress moduleName =
  match Utils.standardizeAddress moduleAddress with
  | Throw e => Throw e
  | Return key =>
      Return
        (if String.eqb key supra_framework_address then
           if String.eqb moduleName "supra_account" then Some (Own supraAccountABI)
           else if existsb (String.eqb moduleName) Object_prototype_names
                then Some (Inherited moduleName)
                else None
         else None)
  end.
Proof.
  unfold AbiStorage.getStoredABI.
  destruct (Utils.standardizeAddress moduleAddress) as [key|e]; [|reflexivity].
  cbn [JS.bind].
  change (AbiStorage.abiStorage ModuleABI supraAccountABI)
    with ({[ supra_framework_address := {[ "supra_account" := supraAccountABI ]} ]}
          : gmap string (gmap string ModuleABI)).
  destruct (String.eqb_spec key supra_framework_address) as [->|Hkey].
  - rewrite lookup_singleton_eq. unfold get_property.
    destruct (String.eqb_spec moduleName "supra_account") as [->|Hname].
    + now rewrite lookup_singleton_eq.
    + rewrite lookup_singleton_ne by congruence.
      destruct (existsb _ _); reflexivity.
  - now rewrite lookup_singleton_ne by congruence.
Qed.

(** X17.  What [getStoredABI] finds.  The stored ABI of [supra_account] is
    found under every spelling of the address [0x1] (short, padded with
    zeros, without prefix).  An ABI is returned only for the module
    [supra_account] at that address.  For a module name that is a member of
    [Object.prototype] ([toString], [constructor], ...) at that address the
    result is that inherited member, not [null].  The result is [null] for
    any other name, and for any other address of at most 64 digits; an
    address of more than 64 digits makes [getStoredABI] throw. *)
Theorem getStoredABI_lookup (moduleAddress moduleName : string) :
  (forall k, (k <= 63)%nat ->
     getStoredABI ("0x" +:+ repeat_char k "0" +:+ "1") "supra_account"
       = Return (Some (Own supraAccountABI)) /\
     getStoredABI (repeat_char k "0" +:+ "1") "supra_account"
       = Return (Some (Own supraAccountABI))) /\
  (forall abi,
     getStoredABI moduleAddress moduleName = Return (Some (Own abi)) ->
     abi = supraAccountABI /\ moduleName = "supra_account" /\
     Utils.standardizeAddress moduleAddress = Return supra_framework_address) /\
  (In moduleName Object_prototype_names ->
     getStoredABI "0x1" moduleName = Return (Some (Inherited moduleName))) /\
  (getStoredABI moduleAddress moduleName = Return None <->
     exists key,
       Utils.standardizeAddress moduleAddress = Return key /\
       (key <> supra_framework_address \/
        (moduleName <> "supra_account" /\ ~ In moduleName Object_prototype_names))) /\
  ((64 < String.length (replace_leading_0x moduleAddress))%nat ->
     exists e, getStoredABI moduleAddress moduleName = Throw e).
Proof.
  assert (Hin : forall name,
            existsb (String.eqb name) Object_prototype_names = true
            <-> In name Object_prototype_names).
  { intros name. rewrite existsb_exists. split.
    - intros (x & Hx & E). apply String.eqb_eq in E. now subst.
    - intros H. exists name. split; [exact H | apply String.eqb_refl]. }
  split; [|split; [|split; [|split]]].
  - intros k Hk.
    assert (Hstd : Utils.standardizeAddress ("0x" +:+ repeat_char k "0" +:+ "1")
                   = Return supra_framework_address).
    { destruct (standardizeAddress_spellings "1" k) as (-> & -> & _);
        [cbn [String.length]; lia | reflexivity]. }
    split.
    + rewrite getStoredABI_eq, Hstd. reflexivity.
    + rewrite getStoredABI_eq.
      assert (Hstd' : Utils.standardizeAddress (repeat_char k "0" +:+ "1")
                      = Return supra_framework_address).
      { rewrite <- Hstd, !standardizeAddress_eq. cbv zeta.
        change (replace_leading_0x ("0x" +:+ ?r)) with r.
        replace (replace_leading_0x (repeat_char k "0" +:+ "1"))
          with (repeat_char k "0" +:+ "1") by (destruct k as [|[|k']]; reflexivity).
        rewrite string_length_app, length_repeat_char. cbn [String.length].
        destruct (Nat.ltb_spec 64 (k + 1)); [lia | reflexivity]. }
      rewrite Hstd'. reflexivity.
  - intros abi. rewrite getStoredABI_eq.
    destruct (Utils.standardizeAddress moduleAddress) as [key|e]; [|discriminate].
    destruct (String.eqb_spec key supra_framework_address) as [->|]; [|discriminate].
    destruct (String.eqb_spec moduleName "supra_account") as [->|].
    + intros [= <-]. repeat split.
    + destruct (existsb _ _); discriminate.
  - intros Hname. rewrite getStoredABI_eq.
    change (Utils.standardizeAddress "0x1") with (Return (A := string) supra_framework_address).
    cbn [String.eqb]. rewrite String.eqb_refl.
    apply Hin in Hname. rewrite Hname.
    destruct (String.eqb_spec moduleName "supra_account") as [->|]; [discriminate|].
    reflexivity.
  - rewrite getStoredABI_eq.
    destruct (Utils.standardizeAddress moduleAddress) as [key|e].
    + destruct (String.eqb_spec key supra_framework_address) as [->|Hkey].
      * destruct (String.eqb_spec moduleName "supra_account") as [->|Hname].
        -- split; [discriminate|]. intros (key & [= <-] & [H|[H _]]); congruence.
        -- destruct (existsb (String.eqb moduleName) Object_prototype_names) eqn:E.
           ++ split; [discriminate|].
              intros (key & [= <-] & [H|[_ H]]); [congruence|].
              exfalso. apply H, Hin, E.
           ++ split; [|reflexivity]. intros _. eexists. split; [reflexivity|].
              right. split; [exact Hname|]. intros H%Hin. congruence.
      * split; [|reflexivity]. intros _. exists key. split; [reflexivity | now left].
    + split; [discriminate|]. intros (key & [=] & _).
  - intros Hlen. rewrite getStoredABI_eq, standardizeAddress_eq. cbv zeta.
    destruct (Nat.ltb_spec 64 (String.length (replace_leading_0x moduleAddress))); [|lia].
    eexists. reflexivity.
Qed.

End AbiStorageFacts.

(** ** [stringToHex] *)

Lemma string_app_nil_r (s : string) : s +:+ EmptyString = s.
Proof.
  induction s as [|c s IH]; [reflexivity|].
  change (String c s +:+ EmptyString) with (String c (s +:+ EmptyString)).
  now rewrite IH.
Qed.

(** The loop that appends to the right builds the same string as
    [map] and [join]. *)
Lemma fold_left_append (f : byte -> string) (bytes : list byte) :
  forall acc,
    fold_left (fun hexString b => hexString +:+ f b) bytes acc
    = acc +:+ join_empty (map f bytes).
Proof.
  induction bytes as [|b bytes IH]; intros acc; cbn [fold_left map join_empty fold_right].
  - now rewrite string_app_nil_r.
  - rewrite IH. apply string_app_assoc.
Qed.

Lemma stringToHex_eq (str : string) :
  Conversion.stringToHex str = hex_of_bytes (TextEncoder_encode str).
Proof. unfold Conversion.stringToHex. cbv zeta. now rewrite fold_left_append. Qed.

Lemma hex_of_bytes_is_hex (bytes : Uint8Array) :
  is_hex_string (hex_of_bytes bytes) = true /\
  String.length (hex_of_bytes bytes) = (2 * length bytes)%nat.
Proof.
  induction bytes as [|b bytes [IHh IHl]]; [split; reflexivity|].
  rewrite hex_of_bytes_cons. cbn [is_hex_string String.length length].
  rewrite IHl. split; [|lia].
  pose proof (hex_pair_decode b EmptyString) as Hd. cbn [Buffer_from_hex] in Hd.
  destruct (unhex (hex_digit (Byte.to_N b / 16)));
    destruct (unhex (hex_digit (Byte.to_N b mod 16))); try discriminate.
  exact IHh.
Qed.

(** The characters of a string are all below 128. *)
Fixpoint is_ascii_string (s : string) : bool :=
  match s with
  | EmptyString => true
  | String c r => (Z.of_N (N_of_ascii c) <? 128) && is_ascii_string r
  end.

Lemma TextEncoder_encode_ascii (s : string) :
  is_ascii_string s = true ->
  TextEncoder_encode s = String.list_byte_of_string s.
Proof.
  unfold TextEncoder_encode.
  induction s as [|c r IH]; [reflexivity|].
  cbn [is_ascii_string String.list_ascii_of_string String.list_byte_of_string flat_map].
  intros [Hc Hr]%andb_true_iff. rewrite Hc. cbn [app]. now rewrite (IH Hr).
Qed.

(** X18.  Round trip of [stringToHex].  The result is the lower-case
    hexadecimal notation of the UTF-8 bytes of the string: two digits for
    each byte, a well-formed hexadecimal string that [Buffer.from(_, 'hex')]
    decodes back to these bytes, and for a string of ASCII characters to the
    string itself.  It is the notation that [createNonce] uses for its
    random bytes. *)
Theorem stringToHex_round_trip (str : string) :
  Buffer_from_hex (Conversion.stringToHex str) = TextEncoder_encode str /\
  String.length (Conversion.stringToHex str) = (2 * length (TextEncoder_encode str))%nat /\
  is_hex_string (Conversion.stringToHex str) = true /\
  Conversion.stringToHex str = hex_of_bytes (TextEncoder_encode str) /\
  (is_ascii_string str = true ->
     String.string_of_list_byte (Buffer_from_hex (Conversion.stringToHex str)) = str).
Proof.
  rewrite stringToHex_eq, Buffer_from_hex_of_bytes.
  destruct (hex_of_bytes_is_hex (TextEncoder_encode str)) as [Hh Hl].
  repeat split; try assumption.
  intros Ha. rewrite (TextEncoder_encode_ascii str Ha).
  apply String.string_of_list_byte_of_string.
Qed.

(** ** The storage helpers of the wallet hook *)

(** The value that one storage contributes to [getStoredWalletType]: the
    stored string when the storage can be read and holds a wallet type. *)
Definition usable_wallet_type (storage : WalletStorage.StorageRead) : option string :=
  match storage with
  | Return (Some (Return (Some stored))) =>
      if WalletStorage.is_wallet_type stored then Some stored else None
  | _ => None
  end.

(** [document.cookie] for a jar of cookies, in order. *)
Fixpoint document_cookie_of (jar : list (string * string)) : string :=
  match jar with
  | [] => EmptyString
  | [(k, v)] => k +:+ "=" +:+ v
  | (k, v) :: rest => k +:+ "=" +:+ v +:+ "; " +:+ document_cookie_of rest
  end.

Lemma is_wallet_type_inv (stored : string) :
  WalletStorage.is_wallet_type stored = true -> stored = "starkey" \/ stored = "ribbit".
Proof.
  unfold WalletStorage.is_wallet_type. cbn [existsb].
  destruct (String.eqb_spec stored "starkey"); [now left|].
  destruct (String.eqb_spec stored "ribbit"); [now right|]. discriminate.
Qed.

Lemma storage_block_eq (storage : WalletStorage.StorageRead) :
  WalletStorage.storage_block storage = usable_wallet_type storage.
Proof.
  unfold WalletStorage.storage_block, usable_wallet_type.
  destruct storage as [[[[[|c r]|]|e]|]|e]; try reflexivity.
  cbn [JS.bind try_catch truthy_string andb default from_option id].
  destruct (WalletStorage.is_wallet_type (String c r)); reflexivity.
Qed.

Section WalletStorageFacts.
Variable decodeURIComponent : string -> Completion string.

Local Abbreviation getCookie := (WalletStorage.getCookie decodeURIComponent).
Local Abbreviation getStoredWalletType := (WalletStorage.getStoredWalletType decodeURIComponent).
Local Abbreviation cookie_block := (WalletStorage.cookie_block decodeURIComponent).

Lemma cookie_block_valid (document : option (Completion string)) (stored : string) :
  cookie_block document = Some stored -> WalletStorage.is_wallet_type stored = true.
Proof.
  unfold WalletStorage.cookie_block.
  destruct document as [document_cookie|]; [|discriminate].
  destruct (getCookie (Some document_cookie) WalletStorage.STORAGE_KEY) as [[[|c r]|]|e];
    cbn [JS.bind try_catch truthy_string andb default from_option id]; try discriminate.
  destruct (WalletStorage.is_wallet_type (String c r)) eqn:E; [|discriminate].
  now intros [= <-].
Qed.

Lemma usable_wallet_type_valid (storage : WalletStorage.StorageRead) (stored : string) :
  usable_wallet_type storage = Some stored -> WalletStorage.is_wallet_type stored = true.
Proof.
  unfold usable_wallet_type.
  destruct storage as [[[[w|]|e]|]|e]; try discriminate.
  destruct (WalletStorage.is_wallet_type w) eqn:E; [|discriminate].
  now intros [= <-].
Qed.

(** X19.  [getStoredWalletType] returns a wallet type, whatever the browser
    holds: the result is always [starkey] or [ribbit].  The storages are
    asked in the order [localStorage], [sessionStorage], cookie, and the
    first one that can be read and holds one of the two names decides; a
    storage that throws, is missing, or holds anything else is passed over.
    Without [window], or when no storage decides, the result is
    [starkey]. *)
Theorem getStoredWalletType_spec
  (window : option (WalletStorage.StorageRead * WalletStorage.StorageRead))
  (document : option (Completion string)) :
  (getStoredWalletType window document = "starkey" \/
   getStoredWalletType window document = "ribbit") /\
  (window = None -> getStoredWalletType window document = "starkey") /\
  (forall localStorage sessionStorage,
     window = Some (localStorage, sessionStorage) ->
     (forall stored, usable_wallet_type localStorage = Some stored ->
        getStoredWalletType window document = stored) /\
     (forall stored,
        usable_wallet_type localStorage = None ->
        usable_wallet_type sessionStorage = Some stored ->
        getStoredWalletType window document = stored) /\
     (forall stored,
        usable_wallet_type localStorage = None ->
        usable_wallet_type sessionStorage = None ->
        getCookie document WalletStorage.STORAGE_KEY = Return (Some stored) ->
        WalletStorage.is_wallet_type stored = true ->
        getStoredWalletType window document = stored) /\
     (usable_wallet_type localStorage = None ->
      usable_wallet_type sessionStorage = None ->
      (forall stored,
         getCookie document WalletStorage.STORAGE_KEY = Return (Some stored) ->
         WalletStorage.is_wallet_type stored = false) ->
      getStoredWalletType window document = "starkey")).
Proof.
  split; [|split].
  - unfold WalletStorage.getStoredWalletType.
    destruct window as [[localStorage sessionStorage]|]; [|now left].
    rewrite !storage_block_eq.
    destruct (usable_wallet_type localStorage) as [w|] eqn:El;
      [now apply is_wallet_type_inv, (usable_wallet_type_valid localStorage)|].
    destruct (usable_wallet_type sessionStorage) as [w|] eqn:Es;
      [now apply is_wallet_type_inv, (usable_wallet_type_valid sessionStorage)|].
    destruct (cookie_block document) as [w|] eqn:Ec; [|now left].
    now apply is_wallet_type_inv, (cookie_block_valid document).
  - now intros ->.
  - intros localStorage sessionStorage ->.
    unfold WalletStorage.getStoredWalletType. rewrite !storage_block_eq.
    split; [|split; [|split]].
    + now intros stored ->.
    + now intros stored -> ->.
    + intros stored -> -> Hc Hv. unfold WalletStorage.cookie_block.
      destruct document as [document_cookie|]; [|discriminate].
      rewrite Hc. destruct stored as [|c r]; [discriminate|].
      cbn [JS.bind try_catch truthy_string andb default from_option id].
      now rewrite Hv.
    + intros -> -> Hc. unfold WalletStorage.cookie_block.
      destruct document as [document_cookie|]; [|reflexivity].
      destruct (getCookie (Some document_cookie) WalletStorage.STORAGE_KEY)
        as [[[|c r]|]|e] eqn:E; try reflexivity.
      cbn [JS.bind try_catch truthy_string andb default from_option id].
      now rewrite (Hc _ eq_refl).
Qed.

Lemma split_semicolon_space_cons (c : ascii) (r : string) :
  WalletStorage.split_semicolon_space (String c r) =
  match r with
  | String d r' =>
      if Ascii.eqb c ";" && Ascii.eqb d " "
      then EmptyString :: WalletStorage.split_semicolon_space r'
      else match WalletStorage.split_semicolon_space r with
           | [] => [String c EmptyString]
           | p :: ps => String c p :: ps
           end
  | EmptyString => [String c EmptyString]
  end.
Proof. destruct r; reflexivity. Qed.

Lemma split_semicolon_space_absent (s : string) :
  count_char ";" s = 0%nat -> WalletStorage.split_semicolon_space s = [s].
Proof.
  induction s as [|c r IH]; [reflexivity|].
  cbn [count_char]. destruct (Ascii.eqb c ";") eqn:Ec; [discriminate|].
  cbn [Nat.add]. intros Hr. rewrite split_semicolon_space_cons.
  destruct r as [|d r']; [reflexivity|].
  rewrite Ec. cbn [andb]. now rewrite (IH Hr).
Qed.

Lemma split_semicolon_space_app (p rest : string) :
  count_char ";" p = 0%nat ->
  WalletStorage.split_semicolon_space (p +:+ String ";" (String " " rest))
  = p :: WalletStorage.split_semicolon_space rest.
Proof.
  induction p as [|c r IH]; [reflexivity|].
  cbn [count_char]. destruct (Ascii.eqb c ";") eqn:Ec; [discriminate|].
  cbn [Nat.add]. intros Hr.
  change (String c r +:+ ?t) with (String c (r +:+ t)).
  rewrite split_semicolon_space_cons.
  destruct (r +:+ String ";" (String " " rest)) as [|d r'] eqn:E.
  - destruct r; discriminate.
  - rewrite Ec. cbn [andb]. rewrite (IH Hr). reflexivity.
Qed.

Lemma startsWith_name (name k v : string) :
  count_char "=" name = 0%nat -> count_char "=" k = 0%nat ->
  WalletStorage.startsWith (name +:+ "=") (k +:+ String "=" v) = String.eqb k name.
Proof.
  revert k. induction name as [|a name IH]; intros k Hn Hk.
  - change (EmptyString +:+ "=") with "=".
    destruct k as [|b k]; [reflexivity|].
    cbn [count_char] in Hk. destruct (Ascii.eqb b "=") eqn:Eb; [discriminate|].
    change (String b k +:+ ?t) with (String b (k +:+ t)).
    cbn [WalletStorage.startsWith String.eqb].
    rewrite Ascii.eqb_sym, Eb. reflexivity.
  - cbn [count_char] in Hn. destruct (Ascii.eqb a "=") eqn:Ea; [discriminate|].
    cbn [Nat.add] in Hn.
    change (String a name +:+ "=") with (String a (name +:+ "=")).
    destruct k as [|b k].
    + change (EmptyString +:+ String "=" v) with (String "=" v).
      cbn [WalletStorage.startsWith String.eqb]. now rewrite Ea.
    + cbn [count_char] in Hk. destruct (Ascii.eqb b "=") eqn:Eb; [discriminate|].
      cbn [Nat.add] in Hk.
      change (String b k +:+ ?t) with (String b (k +:+ t)).
      cbn [WalletStorage.startsWith String.eqb].
      rewrite (IH k Hn Hk), (Ascii.eqb_sym a b).
      destruct (Ascii.eqb b a); reflexivity.
Qed.

Lemma join_equals_cons (a b : string) (l : list string) :
  WalletStorage.join_equals (a :: b :: l) = a +:+ "=" +:+ WalletStorage.join_equals (b :: l).
Proof. reflexivity. Qed.

Lemma join_equals_split (s : string) :
  WalletStorage.join_equals (split "=" s) = s.
Proof.
  induction s as [|c r IH]; [reflexivity|].
  cbn [split]. destruct (Ascii.eqb c "=") eqn:Ec.
  - apply Ascii.eqb_eq in Ec. subst c.
    destruct (split "=" r) as [|p ps] eqn:E; [now apply split_not_nil in E|].
    rewrite join_equals_cons, IH. reflexivity.
  - destruct (split "=" r) as [|p [|q qs]] eqn:E; [now apply split_not_nil in E | |].
    + cbn [WalletStorage.join_equals] in *. now rewrite IH.
    + rewrite join_equals_cons in *. rewrite <- IH. reflexivity.
Qed.

(** The text of a cookie is free of semicolons, its name also of equals
    signs. *)
Definition cookie_well_formed (kv : string * string) : Prop :=
  count_char "=" (fst kv) = 0%nat /\ count_char ";" (fst kv) = 0%nat /\
  count_char ";" (snd kv) = 0%nat.

Lemma pair_text_no_semicolon (k v : string) :
  cookie_well_formed (k, v) -> count_char ";" (k +:+ String "=" v) = 0%nat.
Proof.
  intros (_ & Hk & Hv). cbn [fst snd] in *.
  rewrite count_char_app. cbn [count_char]. rewrite Hk, Hv. reflexivity.
Qed.

Lemma getCookie_cons (name k v : string) (rest : list (string * string)) :
  count_char "=" name = 0%nat ->
  cookie_well_formed (k, v) ->
  getCookie (Some (Return (document_cookie_of ((k, v) :: rest)))) name =
  if String.eqb k name
  then do decoded <- decodeURIComponent v ; Return (Some decoded)
  else getCookie (Some (Return (document_cookie_of rest))) name.
Proof.
  intros Hn Hkv. pose proof (pair_text_no_semicolon k v Hkv) as Hp.
  destruct Hkv as (Hk & _). cbn [fst] in Hk.
  unfold WalletStorage.getCookie. cbn [JS.bind].
  assert (Hhead : forall tail_parts,
            find (fun r => WalletStorage.startsWith (name +:+ "=") r)
                 ((k +:+ String "=" v) :: tail_parts)
            = if String.eqb k name then Some (k +:+ String "=" v)
              else find (fun r => WalletStorage.startsWith (name +:+ "=") r) tail_parts).
  { intros tail_parts. cbn [find]. now rewrite (startsWith_name name k v Hn Hk). }
  assert (Hvalue : WalletStorage.join_equals (tail (split "=" (k +:+ String "=" v))) = v).
  { rewrite (split_app "=" k v Hk). cbn [tail]. apply join_equals_split. }
  destruct rest as [|[k' v'] rest'].
  - cbn [document_cookie_of].
    change (k +:+ "=" +:+ v) with (k +:+ String "=" v).
    rewrite (split_semicolon_space_absent _ Hp), Hhead.
    destruct (String.eqb k name).
    + now rewrite Hvalue.
    + cbn [find WalletStorage.split_semicolon_space].
      destruct name; reflexivity.
  - replace (document_cookie_of ((k, v) :: (k', v') :: rest'))
      with ((k +:+ String "=" v)
            +:+ String ";" (String " " (document_cookie_of ((k', v') :: rest'))))
      by apply string_app_assoc.
    rewrite (split_semicolon_space_app _ _ Hp), Hhead.
    destruct (String.eqb k name); [now rewrite Hvalue | reflexivity].
Qed.

(** X20.  [getCookie] reads a cookie by its exact name.  For a jar of
    cookies whose names hold no equals sign and whose names and values hold
    no semicolon, [getCookie(name)] on its [document.cookie] gives the
    decoded value of the first cookie of that name, with every equals sign
    that the value holds, and [null] when there is none; a cookie whose name
    only begins with [name] is not taken for it.  Without [document] the
    result is [null]. *)
Theorem getCookie_finds (jar : list (string * string)) (name : string) :
  count_char "=" name = 0%nat ->
  Forall cookie_well_formed jar ->
  getCookie (Some (Return (document_cookie_of jar))) name =
    match find (fun kv => String.eqb (fst kv) name) jar with
    | Some kv => do decoded <- decodeURIComponent (snd kv) ; Return (Some decoded)
    | None => Return None
    end /\
  getCookie None name = Return None.
Proof.
  intros Hn Hjar. split; [|reflexivity].
  induction Hjar as [|[k v] rest Hkv Hrest IH].
  - unfold WalletStorage.getCookie. cbn [JS.bind document_cookie_of find].
    cbn [WalletStorage.split_semicolon_space find]. destruct name; reflexivity.
  - rewrite (getCookie_cons name k v rest Hn Hkv). cbn [find fst snd].
    destruct (String.eqb k name); [reflexivity | exact IH].
Qed.

End WalletStorageFacts.

(** ** The further properties on concrete data *)

Lemma created_token_expiry_witness :
  Auth.verifyToken (J := reference_jose) sample_secret (Some sample_token)
    (sample_now + 24 * 60 * 60 * 1000 + 1) = Return None /\
  Check.GET (J := reference_jose) sample_secret (Some sample_token)
    (sample_now + 24 * 60 * 60 * 1000 + 1) =
    Return {| status := 401; body := CheckBody false None |}.
Proof.
  destruct (created_token_expiry (J := reference_jose) sample_secret "0xABCD" sample_now
              (sample_now + 24 * 60 * 60 * 1000 + 1)) as (token & Htoken & _ & _ & Hexpired).
  rewrite sample_token_created in Htoken. injection Htoken as <-.
  apply Hexpired. vm_compute. discriminate.
Defined.

Lemma nonce_with_non_numeric_timestamp_witness :
  Auth.validateNonce (J := reference_jose) sample_secret
    ("soon" +:+ "|" +:+ "00" +:+ "|"
     +:+ sign_compact (JoseLib := reference_jose)
           {[ "payload" := JStr ("soon" +:+ "|" +:+ "00") ]} (Auth.secret sample_secret))
    (sample_now + 1000000000000)
  = Return true.
Proof.
  apply (nonce_with_non_numeric_timestamp (J := reference_jose) sample_secret "soon" "00");
    reflexivity.
Defined.

Lemma POST_create_jwt_status_witness :
  exists response,
    CreateJwt.POST (J := reference_jose) Reference.ref_sign_open sample_secret
      (Return (CreateJwt.JsonObject
         {| CreateJwt.address := Some "0xABCD";
            CreateJwt.signature :=
              Some {| Auth.signature := Some "0xzz"; Auth.publicKey := None |};
            CreateJwt.nonce := Some sample_nonce |})) sample_now = Return response /\
    status response = 400.
Proof.
  destruct (POST_create_jwt_status (J := reference_jose) Reference.ref_sign_open sample_secret
              (Return (CreateJwt.JsonObject
                 {| CreateJwt.address := Some "0xABCD";
                    CreateJwt.signature :=
                      Some {| Auth.signature := Some "0xzz"; Auth.publicKey := None |};
                    CreateJwt.nonce := Some sample_nonce |})) sample_now)
    as (response & Hpost & _ & Hobject & _).
  exists response. split; [exact Hpost|].
  apply (Hobject _ eq_refl). reflexivity.
Defined.

Lemma nonce_route_then_create_jwt_witness :
  exists nonce token,
    NonceRoute.GET (J := reference_jose) sample_secret sample_now sample_random =
      Return {| NonceRoute.status := 200;
                NonceRoute.body := nonce;
                NonceRoute.headers :=
                  [ ("Content-Type", "text/plain");
                    ("Cache-Control", "no-store, no-cache, must-revalidate") ] |} /\
    CreateJwt.POST (J := reference_jose) Reference.ref_sign_open sample_secret
      (Return (CreateJwt.JsonObject
         {| CreateJwt.address := Some "0xABCD";
            CreateJwt.signature := Some sample_envelope;
            CreateJwt.nonce := Some nonce |})) (sample_now + 300000)
      = Return {| status := 200; body := TokenBody token "0xABCD" |}.
Proof.
  destruct (nonce_route_then_create_jwt (J := reference_jose) Reference.ref_sign_open
              sample_secret sample_now sample_random "0xABCD"
              sample_signature sample_publicKey (sample_now + 300000))
    as (nonce & token & Hget & _ & Hin & _).
  - discriminate.
  - vm_compute. reflexivity.
  - exists nonce, token. split; [exact Hget|]. apply Hin. vm_compute. split; discriminate.
Defined.

Lemma sign_in_end_to_end_witness :
  exists nonce token,
    NonceRoute.GET (J := reference_jose) sample_secret sample_now sample_random =
      Return {| NonceRoute.status := 200;
                NonceRoute.body := nonce;
                NonceRoute.headers :=
                  [ ("Content-Type", "text/plain");
                    ("Cache-Control", "no-store, no-cache, must-revalidate") ] |} /\
    CreateJwt.POST (J := reference_jose) Reference.ref_sign_open sample_secret
      (Return (CreateJwt.JsonObject
         {| CreateJwt.address := Some "0xABCD";
            CreateJwt.signature := Some sample_envelope;
            CreateJwt.nonce := Some nonce |})) (sample_now + 1000)
      = Return {| status := 200; body := TokenBody token "0xABCD" |} /\
    WalletLogin.POST (J := reference_jose) sample_secret (Some "production")
      (Return (WalletLogin.JsonObject (Some token))) (sample_now + 2000)
      = Return {| Cookies.status := 200;
                  Cookies.body := Cookies.SuccessBody;
                  Cookies.cookies := [login_cookie (Some "production") token] |} /\
    Check.GET (J := reference_jose) sample_secret
      (Some (Cookies.value (login_cookie (Some "production") token))) (sample_now + 3600000)
      = Return {| status := 200; body := CheckBody true (Some (JStr "0xABCD")) |} /\
    Protected.ProtectedPage (J := reference_jose) sample_secret "0xABCD"
      (Some (Cookies.value (login_cookie (Some "production") token))) (sample_now + 3600000)
      = Return (Protected.Authenticated "0xABCD").
Proof.
  apply (sign_in_end_to_end (J := reference_jose) Reference.ref_sign_open sample_secret
           (Some "production") sample_now sample_random "0xABCD"
           sample_signature sample_publicKey
           (sample_now + 1000) (sample_now + 2000) (sample_now + 3600000)).
  - discriminate.
  - vm_compute. reflexivity.
  - vm_compute. split; discriminate.
  - vm_compute. reflexivity.
  - vm_compute. reflexivity.
Defined.

Lemma wallet_logout_ends_session_witness :
  exists cookie,
    Cookies.cookies (WalletLogout.POST (Some "production")) = [cookie] /\
    Check.GET (J := reference_jose) sample_secret (Some (Cookies.value cookie)) sample_now =
      Return {| status := 401; body := CheckBody false None |}.
Proof.
  destruct (wallet_logout_ends_session (J := reference_jose) sample_secret
              (Some "production") "0xABCD" sample_now)
    as (cookie & Hpost & _ & _ & _ & Hafter).
  exists cookie. split; [now rewrite Hpost|].
  apply (Hafter (Some (Cookies.value cookie))). now right.
Defined.

Lemma ProtectedPage_case_insensitive_witness :
  exists token,
    Auth.createToken (J := reference_jose) sample_secret "0xABCD" sample_now = Return token /\
    Protected.ProtectedPage (J := reference_jose) sample_secret "0xabcd" (Some token)
      (sample_now + 1000) = Return (Protected.Authenticated "0xABCD") /\
    Protected.ProtectedPage (J := reference_jose) sample_secret "0xabce" (Some token)
      (sample_now + 1000) = Return Protected.Unauthorized.
Proof.
  destruct (ProtectedPage_case_insensitive (J := reference_jose) sample_secret
              "0xABCD" "0xabcd" sample_now (sample_now + 1000))
    as (token & Htoken & Hsame & _); [vm_compute; reflexivity|].
  destruct (ProtectedPage_case_insensitive (J := reference_jose) sample_secret
              "0xABCD" "0xabce" sample_now (sample_now + 1000))
    as (token' & Htoken' & _ & Hother); [vm_compute; reflexivity|].
  rewrite Htoken in Htoken'. injection Htoken' as <-.
  exists token. split; [exact Htoken|]. split.
  - apply Hsame. reflexivity.
  - apply Hother. discriminate.
Defined.

Lemma ProtectedPage_sound_witness :
  exists token payload,
    Some sample_token = Some token /\
    Auth.verifyToken (J := reference_jose) sample_secret (Some token) sample_now
      = Return (Some payload) /\
    payload !! "address" = Some (JStr "0xABCD") /\
    toLowerCase "0xABCD" = toLowerCase "0xabcd".
Proof.
  apply (ProtectedPage_sound (J := reference_jose) sample_secret
           "0xabcd" "0xABCD" (Some sample_token) sample_now).
  vm_compute. reflexivity.
Defined.

Lemma standardizeAddress_shape_witness :
  exists standardized,
    Utils.standardizeAddress "0x1" = Return standardized /\
    standardized = supra_framework_address /\
    String.length standardized = 66%nat.
Proof.
  destruct (standardizeAddress_shape "0x1") as [Hshort _].
  destruct Hshort as (standardized & Hs & Heq & Hlen); [vm_compute; lia|].
  exists standardized. repeat split; assumption.
Defined.

Lemma standardizeAddress_idempotent_witness :
  Utils.standardizeAddress supra_framework_address = Return supra_framework_address.
Proof.
  apply (standardizeAddress_idempotent "0x1"). reflexivity.
Defined.

Lemma standardizeAddress_spellings_witness :
  Utils.standardizeAddress ("0x" +:+ repeat_char 3 "0" +:+ "1f")
    = Utils.standardizeAddress ("0x" +:+ "1f") /\
  Utils.standardizeAddress "1f" = Utils.standardizeAddress ("0x" +:+ "1f").
Proof.
  destruct (standardizeAddress_spellings "1f" 3) as (Hzeros & _ & Hprefix);
    [vm_compute; lia|].
  split; [exact Hzeros | apply Hprefix; reflexivity].
Defined.

Lemma getStoredABI_lookup_witness :
  AbiStorage.getStoredABI string "abi" "0x01" "supra_account" = Return (Some (Own "abi")) /\
  AbiStorage.getStoredABI string "abi" "0x1" "toString" = Return (Some (Inherited "toString")).
Proof.
  destruct (getStoredABI_lookup string "abi" "0x1" "toString")
    as (Hspell & _ & Hinherited & _).
  split.
  - apply (Hspell 1%nat). lia.
  - apply Hinherited. cbn. tauto.
Defined.

Lemma stringToHex_round_trip_witness :
  String.string_of_list_byte (Buffer_from_hex (Conversion.stringToHex "Supra")) = "Supra".
Proof.
  apply (stringToHex_round_trip "Supra"). reflexivity.
Defined.

Lemma getStoredWalletType_spec_witness :
  WalletStorage.getStoredWalletType (fun s => Return s)
    (Some (Throw (Error "SecurityError"), Return (Some (Return (Some "ribbit")))))
    None = "ribbit".
Proof.
  destruct (getStoredWalletType_spec (fun s => Return s)
              (Some (Throw (Error "SecurityError"), Return (Some (Return (Some "ribbit")))))
              None) as (_ & _ & Hwindow).
  destruct (Hwindow _ _ eq_refl) as (_ & Hsession & _).
  apply Hsession; reflexivity.
Defined.

Lemma getCookie_finds_witness :
  WalletStorage.getCookie (fun s => Return s)
    (Some (Return (document_cookie_of
       [ ("authTokenOld", "a"); ("authToken", "b=c"); ("theme", "dark") ])))
    "authToken" = Return (Some "b=c").
Proof.
  refine (proj1 (getCookie_finds (fun s => Return s)
           [ ("authTokenOld", "a"); ("authToken", "b=c"); ("theme", "dark") ]
           "authToken" _ _)).
  - reflexivity.
  - repeat constructor.
Defined.
